(** * Drop countdown, drop status and notify form (assets/drop-countdown.js)

    A shallow embedding of the three custom elements of
    [assets/drop-countdown.js]:

    - [DropCountdown]: the once-per-second countdown to the next boundary;
    - [DropStatus]: the status badge, the add-to-cart button and the notify
      panel;
    - [DropNotify]: the email form posted to [/contact].

    Every method becomes a function on an explicit state record: the fields
    of [this], the elements the component looked up, and the part of the
    browser the method touches (interval timers, dispatched events, the
    console, the requests sent).  The wall clock read by [new Date()] is an
    argument of the method that reads it. *)

From Stdlib Require Import ZArith String Ascii List Lia Bool DecimalString.
From Stdlib Require DecimalZ.
From stdpp Require Import base decidable option gmap.
Import ListNotations.

Local Open Scope string_scope.
Local Open Scope Z_scope.

(** ** JavaScript values used by the file *)

(** A JavaScript number, as far as this file meets them: the time values
    of dates (integers of at most 8.64e15 in magnitude), the difference of
    a date and the current instant, and the quotients and remainders of
    that difference are all integers below 2^53 in magnitude, which doubles
    hold exactly; [NaN] is the time value of an invalid date. *)
Inductive number : Type :=
| Finite (z : Z)
| NaN.

#[global] Instance number_eq_dec : EqDecision number.
Proof. solve_decision. Defined.

(** [a < b] and [a <= b]: false as soon as one side is [NaN]. *)
Definition num_lt (a b : number) : bool :=
  match a, b with
  | Finite x, Finite y => x <? y
  | _, _ => false
  end.

Definition num_le (a b : number) : bool :=
  match a, b with
  | Finite x, Finite y => x <=? y
  | _, _ => false
  end.

(** [a - b]. *)
Definition num_sub (a b : number) : number :=
  match a, b with
  | Finite x, Finite y => Finite (x - y)
  | _, _ => NaN
  end.

(** [a % c] for a non-zero constant [c]: the remainder has the sign of the
    dividend, which is [Z.rem]. *)
Definition num_rem (a : number) (c : Z) : number :=
  match a with
  | Finite x => Finite (Z.rem x c)
  | NaN => NaN
  end.

(** [Math.floor(a / c)] for a positive constant [c]: the floating quotient
    of two integers below 2^53 floors to the integer quotient [Z.div]. *)
Definition floor_div (a : number) (c : Z) : number :=
  match a with
  | Finite x => Finite (x / c)
  | NaN => NaN
  end.

(** [Number.prototype.toString()] on an integer (below 1e21, where the
    decimal expansion is printed in full) and on [NaN]. *)
Definition toString (n : number) : string :=
  match n with
  | Finite z => NilZero.string_of_int (Z.to_int z)
  | NaN => "NaN"
  end.

(** [padString] repeated [k] times. *)
Fixpoint repeat_string (k : nat) (padString : string) : string :=
  match k with
  | O => ""
  | S k' => padString ++ repeat_string k' padString
  end.

(** [String.prototype.padStart(targetLength, padString)]: the string itself
    when it is long enough or the filler is empty, else the filler repeated
    and cut to the missing length, then the string. *)
Definition padStart (targetLength : nat) (padString : string) (s : string) : string :=
  if (targetLength <=? String.length s)%nat then s
  else if (String.length padString =? 0)%nat then s
  else
    let fillLen := (targetLength - String.length s)%nat in
    String.substring 0 fillLen (repeat_string fillLen padString) ++ s.

(** A [Date] object; [getTime] is its time value in milliseconds, [NaN] for
    an invalid date. *)
Record Date : Type := mkDate { getTime : number }.

#[global] Instance Date_eq_dec : EqDecision Date.
Proof. solve_decision. Defined.

(** [new Date()]: the current instant, always a valid date. *)
Definition Date_now (clock : Z) : Date := mkDate (Finite clock).

(** [a < b] on two dates compares their time values. *)
Definition Date_lt (a b : Date) : bool := num_lt (getTime a) (getTime b).

(** [a - b] on two dates subtracts their time values. *)
Definition Date_sub (a b : Date) : number := num_sub (getTime a) (getTime b).

(** The three status strings ['upcoming'], ['live'] and ['ended']. *)
Inductive Status : Type :=
| upcoming
| live
| ended.

#[global] Instance Status_eq_dec : EqDecision Status.
Proof. solve_decision. Defined.

(** The status as the string the code writes. *)
Definition status_string (s : Status) : string :=
  match s with
  | upcoming => "upcoming"
  | live => "live"
  | ended => "ended"
  end.

(** The order in which a drop passes through its statuses. *)
Definition status_rank (s : Status) : Z :=
  match s with
  | upcoming => 0
  | live => 1
  | ended => 2
  end.

(** [this.startDate && now < this.startDate]: [null] is falsy, a [Date]
    object is truthy even when invalid. *)
Definition set_and_after (d : option Date) (now : Date) : bool :=
  match d with
  | Some d' => Date_lt now d'
  | None => false
  end.

(** ** The rule of the specification *)

Module Spec.

(** The instant a date field stands for: none when the field is [null] or
    holds an invalid date. *)
Definition instant (d : option Date) : option Z :=
  match d with
  | Some (mkDate (Finite t)) => Some t
  | _ => None
  end.

Definition present_and_after (i : option Z) (now : Z) : bool :=
  match i with
  | Some t => now <? t
  | None => false
  end.

(** [Upcoming] if [startInstant] is present and [now < startInstant];
    else [Live] if [endInstant] is present and [now < endInstant];
    else [Ended]. *)
Definition statusOf (now : Z) (startInstant endInstant : option Z) : Status :=
  if present_and_after startInstant now then upcoming
  else if present_and_after endInstant now then live
  else ended.

End Spec.

(** ** [class DropCountdown] *)

Module DropCountdown.

(** The event built by [new CustomEvent(type, { bubbles, detail: { status } })]. *)
Record CustomEvent : Type := mkEvent {
  type : string;
  bubbles : bool;
  detail_status : string
}.

(** What the host element carries when it is attached: its two data
    attributes and the four digit slots of its subtree.  A data attribute
    is [None] when it is missing or empty (falsy), otherwise the [Date] the
    constructor builds from it; a slot is [None] when [querySelector] finds
    no element, otherwise the element, given by its [textContent]. *)
Record Host : Type := mkHost {
  dataset_startDate : option Date;
  dataset_endDate : option Date;
  countdown_days : option string;
  countdown_hours : option string;
  countdown_minutes : option string;
  countdown_seconds : option string
}.

(** The component and the part of the browser it acts on.  [intervalId] is
    [null] or a timer handle (a positive integer, hence truthy); the four
    elements are [None] while unset or [null]; [timers] are the handles of
    the interval timers still running, each of which calls [update];
    [nextHandle] is the handle [setInterval] hands out next; [dispatched]
    lists the events dispatched so far, oldest first. *)
Record t : Type := mk {
  startDate : option Date;
  endDate : option Date;
  intervalId : option positive;
  daysEl : option string;
  hoursEl : option string;
  minutesEl : option string;
  secondsEl : option string;
  classList : list string;
  timers : gset positive;
  nextHandle : positive;
  dispatched : list CustomEvent
}.

(** [constructor()], on a page where no timer runs yet. *)
Definition constructor : t :=
  mk None None None None None None None [] ∅ 1%positive [].

(** [clearInterval(id)]: stops the timer; nothing happens when no timer has
    this handle. *)
Definition clearInterval (id : positive) (w : t) : t :=
  mk (startDate w) (endDate w) (intervalId w)
     (daysEl w) (hoursEl w) (minutesEl w) (secondsEl w) (classList w)
     (timers w ∖ {[id]}) (nextHandle w) (dispatched w).

(** [this.intervalId = v]. *)
Definition set_intervalId (v : option positive) (w : t) : t :=
  mk (startDate w) (endDate w) v
     (daysEl w) (hoursEl w) (minutesEl w) (secondsEl w) (classList w)
     (timers w) (nextHandle w) (dispatched w).

(** [this.intervalId = setInterval(() => this.update(), 1000)]. *)
Definition setInterval_update (w : t) : t :=
  mk (startDate w) (endDate w) (Some (nextHandle w))
     (daysEl w) (hoursEl w) (minutesEl w) (secondsEl w) (classList w)
     ({[nextHandle w]} ∪ timers w) (Pos.succ (nextHandle w)) (dispatched w).

(** [this.classList.add(token)]: a token already present is not added
    again. *)
Definition classList_add (token : string) (w : t) : t :=
  mk (startDate w) (endDate w) (intervalId w)
     (daysEl w) (hoursEl w) (minutesEl w) (secondsEl w)
     (if existsb (String.eqb token) (classList w) then classList w
      else (classList w ++ [token])%list)
     (timers w) (nextHandle w) (dispatched w).

(** [this.dispatchEvent(e)]. *)
Definition dispatchEvent (e : CustomEvent) (w : t) : t :=
  mk (startDate w) (endDate w) (intervalId w)
     (daysEl w) (hoursEl w) (minutesEl w) (secondsEl w) (classList w)
     (timers w) (nextHandle w) (dispatched w ++ [e])%list.

(** [getStatus(now)]. *)
Definition getStatus (w : t) (now : Date) : Status :=
  if set_and_after (startDate w) now then upcoming
  else if set_and_after (endDate w) now then live
  else ended.

(** [padZero(num)]. *)
Definition padZero (num : number) : string :=
  padStart 2 "0" (toString num).

(** [animateValue(el, newValue)]: the element after the call. *)
Definition animateValue (el : string) (newValue : string) : string :=
  if negb (String.eqb el newValue) then newValue else el.

(** [if (el) this.animateValue(el, this.padZero(num))]. *)
Definition setValue (el : option string) (num : number) : option string :=
  match el with
  | Some e => Some (animateValue e (padZero num))
  | None => None
  end.

(** [setValues(days, hours, minutes, seconds)]. *)
Definition setValues (days hours minutes seconds : number) (w : t) : t :=
  mk (startDate w) (endDate w) (intervalId w)
     (setValue (daysEl w) days) (setValue (hoursEl w) hours)
     (setValue (minutesEl w) minutes) (setValue (secondsEl w) seconds)
     (classList w) (timers w) (nextHandle w) (dispatched w).

(** [showEnded()]. *)
Definition showEnded (w : t) : t :=
  let w1 :=
    match intervalId w with
    | Some id => set_intervalId None (clearInterval id w)
    | None => w
    end in
  let w2 := classList_add "drop-countdown--ended" w1 in
  setValues (Finite 0) (Finite 0) (Finite 0) (Finite 0) w2.

(** The four quotients of [update]. *)
Definition days_of (diff : number) : number :=
  floor_div diff (1000 * 60 * 60 * 24).

Definition hours_of (diff : number) : number :=
  floor_div (num_rem diff (1000 * 60 * 60 * 24)) (1000 * 60 * 60).

Definition minutes_of (diff : number) : number :=
  floor_div (num_rem diff (1000 * 60 * 60)) (1000 * 60).

Definition seconds_of (diff : number) : number :=
  floor_div (num_rem diff (1000 * 60)) 1000.

(** The event of the [diff <= 0] branch of [update]. *)
Definition status_change (status : Status) : CustomEvent :=
  mkEvent "drop-status-change" true
    (match status with upcoming => "live" | _ => "ended" end).

(** [update()], run when the clock reads [clock]. *)
Definition update (clock : Z) (w : t) : t :=
  let now := Date_now clock in
  let status := getStatus w now in
  match status with
  | ended => showEnded w
  | _ =>
    let targetDate :=
      match status with
      | upcoming => startDate w
      | _ => endDate w
      end in
    match targetDate with
    | None => showEnded w
    | Some target =>
      let diff := Date_sub target now in
      if num_le diff (Finite 0) then dispatchEvent (status_change status) w
      else setValues (days_of diff) (hours_of diff) (minutes_of diff)
                     (seconds_of diff) w
    end
  end.

(** [connectedCallback()] on the host [h], run when the clock reads
    [clock]. *)
Definition connectedCallback (h : Host) (clock : Z) (w : t) : t :=
  let w1 :=
    mk (dataset_startDate h) (dataset_endDate h) (intervalId w)
       (daysEl w) (hoursEl w) (minutesEl w) (secondsEl w) (classList w)
       (timers w) (nextHandle w) (dispatched w) in
  match startDate w1, endDate w1 with
  | None, None => w1
  | _, _ =>
    let w2 :=
      mk (startDate w1) (endDate w1) (intervalId w1)
         (countdown_days h) (countdown_hours h) (countdown_minutes h)
         (countdown_seconds h) (classList w1)
         (timers w1) (nextHandle w1) (dispatched w1) in
    setInterval_update (update clock w2)
  end.

(** [disconnectedCallback()]. *)
Definition disconnectedCallback (w : t) : t :=
  match intervalId w with
  | Some id => clearInterval id w
  | None => w
  end.

(** The callback of timer [id] comes due when the clock reads [clock]: it
    runs [update] if the timer is still running. *)
Definition fire (id : positive) (clock : Z) (w : t) : t :=
  if decide (id ∈ timers w) then update clock w else w.

(** The timer of the component comes due at each of the clock readings, in
    turn. *)
Fixpoint ticks (id : positive) (clocks : list Z) (w : t) : t :=
  match clocks with
  | [] => w
  | clock :: rest => ticks id rest (fire id clock w)
  end.

(** What a digit slot looks like once it shows zero: ["00"] where the
    element exists. *)
Definition zeroed (el : option string) : option string :=
  match el with
  | Some _ => Some "00"
  | None => None
  end.

End DropCountdown.

(** ** [class DropStatus] *)

Module DropStatus.

(** The status badge [.drop-status]: its [className] and the text of its
    [.drop-status__text] child, [None] when there is no such child. *)
Record Badge : Type := mkBadge {
  className : string;
  textEl : option string
}.

(** The add-to-cart button [.drop-add-button]. *)
Record AddButton : Type := mkAddButton {
  disabled : bool;
  classList : list string;
  textContent : string
}.

(** The component and the three elements it looks up in the document, each
    [None] when [document.querySelector] finds nothing; the notify section
    [.drop-notify] is given by its [style.display]. *)
Record t : Type := mk {
  startDate : option Date;
  endDate : option Date;
  data_status : option string;
  statusBadge : option Badge;
  addButton : option AddButton;
  notifySection : option string
}.

(** The status computed at the head of [updateStatus()]. *)
Definition status_at (w : t) (now : Date) : Status :=
  if set_and_after (startDate w) now then upcoming
  else if set_and_after (endDate w) now then live
  else ended.

(** The object literal [textMap], read at [textMap[status]]. *)
Definition textMap (status : Status) : string :=
  match status with
  | upcoming => "Coming Soon"
  | live => "Drop Live"
  | ended => "Drop Ended"
  end.

(** [classList.add(token)] and [classList.remove(token)] on a token list
    without repetitions. *)
Definition tokens_add (token : string) (l : list string) : list string :=
  if existsb (String.eqb token) l then l else (l ++ [token])%list.

Definition tokens_remove (token : string) (l : list string) : list string :=
  List.filter (fun x => negb (String.eqb token x)) l.

(** The [if (statusBadge)] block. *)
Definition update_badge (status : Status) (b : Badge) : Badge :=
  mkBadge ("drop-status drop-status--" ++ status_string status)
          (match textEl b with
           | Some _ => Some (textMap status)
           | None => None
           end).

(** The [if (addButton)] block. *)
Definition update_button (status : Status) (b : AddButton) : AddButton :=
  match status with
  | live =>
    mkAddButton false
      (tokens_remove "drop-add-button--disabled" (classList b))
      "Add to Cart"
  | _ =>
    mkAddButton true
      (tokens_add "drop-add-button--disabled" (classList b))
      (match status with upcoming => "Coming Soon" | _ => "Sold Out" end)
  end.

(** The [if (notifySection)] block. *)
Definition update_notify (status : Status) (display : string) : string :=
  match status with live => "none" | _ => "flex" end.

(** [updateStatus()], run when the clock reads [clock]. *)
Definition updateStatus (clock : Z) (w : t) : t :=
  let now := Date_now clock in
  let status := status_at w now in
  mk (startDate w) (endDate w)
     (Some (status_string status))
     (update_badge status <$> statusBadge w)
     (update_button status <$> addButton w)
     (update_notify status <$> notifySection w).

(** [connectedCallback()], run when the clock reads [clock], on a host
    whose two data attributes are given as for [DropCountdown.Host]; the
    listener it registers runs [updateStatus] again on each
    [drop-status-change] event. *)
Definition connectedCallback
    (dataset_startDate dataset_endDate : option Date) (clock : Z) (w : t) : t :=
  updateStatus clock
    (mk dataset_startDate dataset_endDate (data_status w) (statusBadge w)
        (addButton w) (notifySection w)).

End DropStatus.

(** ** [class DropNotify] *)

Module DropNotify.

(** The submit button. *)
Record Button : Type := mkButton {
  disabled : bool;
  textContent : string
}.

(** The request handed to [fetch]: the URL, the method and the fields of
    the [FormData] body, in the order they were appended. *)
Record Request : Type := mkRequest {
  url : string;
  method : string;
  body : list (string * string)
}.

(** How the promise of [fetch] settles: fulfilled with a response, whatever
    its HTTP status, or rejected when the request itself fails. *)
Inductive Settled : Type :=
| Fulfilled (status : Z)
| Rejected (reason : string).

(** The component after [connectedCallback()]: the form and the success
    message by their [style.display], the input by its [value], the button;
    each [None] when [querySelector] finds nothing.  [fetched] lists the
    requests sent and [console_error] the lines logged, oldest first. *)
Record t : Type := mk {
  form : option string;
  input : option string;
  button : option Button;
  successMessage : option string;
  fetched : list Request;
  console_error : list string
}.

(** How a run of a method ends: normally or with an exception thrown. *)
Inductive Completion : Type :=
| Done (w : t)
| Threw (error : string) (w : t).

Definition set_button (b : Button) (w : t) : t :=
  mk (form w) (input w) (Some b) (successMessage w) (fetched w)
     (console_error w).

(** The request of [handleSubmit]. *)
Definition contact_request (email : string) : Request :=
  mkRequest "/contact" "POST"
    [("contact[email]", email); ("contact[tags]", "drop-notify")].

(** [handleSubmit(e)] up to the [await]: [inl] when the method is over
    before it calls [fetch], [inr] with the state in which it waits. *)
Definition handleSubmit_begin (w : t) : Completion + t :=
  match input w with
  | None => inl (Done w)
  | Some email =>
    if (String.length email =? 0)%nat then inl (Done w)
    else
      match button w with
      | None => inl (Threw "TypeError" w)
      | Some _ =>
        let w1 := set_button (mkButton true "Submitting...") w in
        inr (mk (form w1) (input w1) (button w1) (successMessage w1)
                (fetched w1 ++ [contact_request email])%list
                (console_error w1))
      end
  end.

(** [handleSubmit(e)] from the [await] on, once the promise has settled. *)
Definition handleSubmit_resume (r : Settled) (w : t) : Completion :=
  match r with
  | Fulfilled _ =>
    Done (mk (match form w with Some _ => Some "none" | None => None end)
             (input w) (button w)
             (match successMessage w with
              | Some _ => Some "flex"
              | None => None
              end)
             (fetched w) (console_error w))
  | Rejected reason =>
    let w1 :=
      mk (form w) (input w) (button w) (successMessage w) (fetched w)
         (console_error w ++
          [("Error submitting notify form: " ++ reason)%string])%list in
    match button w1 with
    | None => Threw "TypeError" w1
    | Some _ => Done (set_button (mkButton false "Notify Me") w1)
    end
  end.

(** [handleSubmit(e)] when no other handler runs while it waits and the
    promise of [fetch] settles as [r]. *)
Definition handleSubmit (r : Settled) (w : t) : Completion :=
  match handleSubmit_begin w with
  | inl c => c
  | inr w1 => handleSubmit_resume r w1
  end.

End DropNotify.

(** ** The life of a countdown on a page *)

Module Lifecycle.

(** The states a countdown passes through, with whether it is attached:
    the browser creates it detached, attaches a detached element, detaches
    an attached one, and at any moment may run the callback of a timer,
    which does something only while that timer runs. *)
Inductive Reachable : bool -> DropCountdown.t -> Prop :=
| created :
    Reachable false DropCountdown.constructor
| attached (h : DropCountdown.Host) (clock : Z) (w : DropCountdown.t) :
    Reachable false w ->
    Reachable true (DropCountdown.connectedCallback h clock w)
| detached (w : DropCountdown.t) :
    Reachable true w ->
    Reachable false (DropCountdown.disconnectedCallback w)
| timer_due (a : bool) (id : positive) (clock : Z) (w : DropCountdown.t) :
    Reachable a w ->
    Reachable a (DropCountdown.fire id clock w).

(** What holds of every state of the life of a countdown: nothing was
    dispatched, every running timer has a handle already handed out, and a
    running timer is the one the component remembers, on an attached
    component. *)
Definition life_invariant (a : bool) (w : DropCountdown.t) : Prop :=
  DropCountdown.dispatched w = [] /\
  (forall id, id ∈ DropCountdown.timers w ->
     (id < DropCountdown.nextHandle w)%positive) /\
  (forall id, id ∈ DropCountdown.timers w ->
     a = true /\ DropCountdown.intervalId w = Some id).

End Lifecycle.

(** ** [preloader.js] *)

Module Preloader.

(** The three delays of [CONFIG], in milliseconds. *)
Definition minLoadTime : Z := 300.
Definition maxLoadTime : Z := 8000.
Definition fadeDelay : Z := 100.

(** The double quote, for the selectors that hold one. *)
Definition quote : string := String "034"%char EmptyString.

(** [CONFIG.buttonSelectors] and [CONFIG.excludeSelectors]. *)
Definition buttonSelectors : list string :=
  [ ".drop-add-button";
    "button[type=" ++ quote ++ "submit" ++ quote ++ "]";
    ".btn";
    ".button";
    "[data-preloader]" ]%string.

Definition excludeSelectors : list string :=
  [ "[data-no-preloader]";
    "[target=" ++ quote ++ "_blank" ++ quote ++ "]";
    "[href^=" ++ quote ++ "#" ++ quote ++ "]";
    "[href^=" ++ quote ++ "mailto:" ++ quote ++ "]";
    "[href^=" ++ quote ++ "tel:" ++ quote ++ "]";
    ".no-preloader" ]%string.

(** The two functions handed to [setTimeout]: the anonymous one of
    [hidePreloader], which hides, and [hidePreloader] itself. *)
Inductive Callback : Type :=
| hide_now
| call_hidePreloader.

(** The variables of the script and the part of the page it acts on:
    [preloaderEl] is [null] or the element, given by its class list;
    [timeouts] are the pending timers with the instant at which each is
    due, the next one first; [console_log] lists the lines logged, oldest
    first. *)
Record t : Type := mk {
  preloaderEl : option (list string);
  showTime : Z;
  body_overflow : string;
  timeouts : list (Z * Callback);
  console_log : list string
}.

(** The script as it is loaded, on a page whose body has the inline
    overflow [overflow]. *)
Definition loaded (overflow : string) : t := mk None 0 overflow [] [].

(** A timer due at [due] joins the pending ones: after those due earlier or
    at the same instant, before those due later. *)
Fixpoint enqueue (due : Z) (cb : Callback) (q : list (Z * Callback))
  : list (Z * Callback) :=
  match q with
  | [] => [(due, cb)]
  | (d, c) :: rest =>
    if d <=? due then (d, c) :: enqueue due cb rest
    else (due, cb) :: (d, c) :: rest
  end.

(** [setTimeout(cb, delay)], called when the clock reads [clock]. *)
Definition setTimeout (cb : Callback) (delay : Z) (clock : Z) (st : t) : t :=
  mk (preloaderEl st) (showTime st) (body_overflow st)
     (enqueue (clock + delay) cb (timeouts st)) (console_log st).

(** [console.log(line)]. *)
Definition log (line : string) (st : t) : t :=
  mk (preloaderEl st) (showTime st) (body_overflow st) (timeouts st)
     (console_log st ++ [line])%list.

(** [showPreloader()], called when [Date.now()] is [clock]. *)
Definition showPreloader (clock : Z) (st : t) : t :=
  match preloaderEl st with
  | None => st
  | Some classes =>
    mk (Some (DropStatus.tokens_remove "hidden" classes)) clock "hidden"
       (timeouts st) (console_log st)
  end.

(** [hidePreloader()], called when [Date.now()] is [clock]. *)
Definition hidePreloader (clock : Z) (st : t) : t :=
  match preloaderEl st with
  | None => st
  | Some _ =>
    let elapsed := clock - showTime st in
    let remaining := Z.max 0 (minLoadTime - elapsed) in
    setTimeout hide_now (remaining + fadeDelay) clock st
  end.

(** The function [hidePreloader] hands to [setTimeout]; without element its
    first statement throws and nothing is changed. *)
Definition hide_callback (st : t) : t :=
  match preloaderEl st with
  | None => st
  | Some classes =>
    mk (Some (DropStatus.tokens_add "hidden" classes)) (showTime st) ""
       (timeouts st) (console_log st)
  end.

(** A pending timer runs, when the clock reads [clock]. *)
Definition run_callback (cb : Callback) (clock : Z) (st : t) : t :=
  match cb with
  | hide_now => hide_callback st
  | call_hidePreloader => hidePreloader clock st
  end.

(** The next pending timer, if any, runs at the instant it is due. *)
Definition run_next (st : t) : t :=
  match timeouts st with
  | [] => st
  | (due, cb) :: rest =>
    run_callback cb due
      (mk (preloaderEl st) (showTime st) (body_overflow st) rest
          (console_log st))
  end.

(** The pending timers run one after the other, at most [fuel] of them. *)
Fixpoint drain (fuel : nat) (st : t) : t :=
  match fuel with
  | O => st
  | S fuel' =>
    match timeouts st with
    | [] => st
    | _ :: _ => drain fuel' (run_next st)
    end
  end.

(** What the listeners read of an element and of a click. *)
Record Element : Type := mkElement {
  type : string;
  has_data_preloader : bool;
  href : option string;
  target : string
}.

Record MouseEvent : Type := mkMouseEvent {
  defaultPrevented : bool;
  metaKey : bool;
  ctrlKey : bool;
  shiftKey : bool
}.

Section Page.

(** [element.matches(selector)], left to the browser, and
    [window.location.origin]. *)
Variable matches : Element -> string -> bool.
Variable origin : string.

(** [isExcluded(element)]. *)
Definition isExcluded (element : Element) : bool :=
  existsb (matches element) excludeSelectors.

(** The number of click listeners [attachButtonListeners] puts on an
    element: one for each button selector it matches, none when it is
    excluded. *)
Definition button_listeners (btn : Element) : nat :=
  if isExcluded btn then O
  else length (List.filter (matches btn) buttonSelectors).

(** Whether [attachLinkListeners] puts its click listener on a link. *)
Definition link_listens (link : Element) : bool :=
  match href link with
  | None => false
  | Some h =>
    if (String.length h =? 0)%nat then false
    else if isExcluded link then false
    else if String.prefix "#" h then false
    else if String.prefix "mailto:" h then false
    else if String.prefix "tel:" h then false
    else if String.eqb (target link) "_blank" then false
    else String.prefix "/" h || String.prefix origin h
  end.

(** Whether [attachFormListeners] puts its submit listener on a form. *)
Definition form_listens (form : Element) : bool :=
  negb (isExcluded form).

End Page.

(** The click listener of a button, run when the clock reads [clock]. *)
Definition button_click (btn : Element) (clock : Z) (st : t) : t :=
  if String.eqb (type btn) "submit" || has_data_preloader btn
  then setTimeout call_hidePreloader maxLoadTime clock (showPreloader clock st)
  else st.

(** The click listener of a link. *)
Definition link_click (e : MouseEvent) (clock : Z) (st : t) : t :=
  if defaultPrevented e then st
  else if metaKey e || ctrlKey e || shiftKey e then st
  else showPreloader clock st.

(** The submit listener of a form. *)
Definition form_submit (prevented : bool) (clock : Z) (st : t) : t :=
  if negb prevented
  then setTimeout call_hidePreloader maxLoadTime clock (showPreloader clock st)
  else st.

(** The [pageshow] listener. *)
Definition pageshow (persisted : bool) (clock : Z) (st : t) : t :=
  if persisted then hidePreloader clock st else st.

(** [init()], where [found] is what [getElementById] returns; the
    listeners it attaches are the ones above. *)
Definition init (found : option (list string)) (clock : Z) (st : t) : t :=
  let st1 :=
    mk found (showTime st) (body_overflow st) (timeouts st)
       (console_log st) in
  match found with
  | None => log "Preloader: Element not found" st1
  | Some _ => log "Preloader: Initialized" (hidePreloader clock st1)
  end.

(** What can happen to the script once it is loaded. *)
Inductive Action : Type :=
| act_show (clock : Z)
| act_hide (clock : Z)
| act_button (btn : Element) (clock : Z)
| act_link (e : MouseEvent) (clock : Z)
| act_form (prevented : bool) (clock : Z)
| act_pageshow (persisted : bool) (clock : Z)
| act_timer.

Definition act (a : Action) (st : t) : t :=
  match a with
  | act_show clock => showPreloader clock st
  | act_hide clock => hidePreloader clock st
  | act_button btn clock => button_click btn clock st
  | act_link e clock => link_click e clock st
  | act_form prevented clock => form_submit prevented clock st
  | act_pageshow persisted clock => pageshow persisted clock st
  | act_timer => run_next st
  end.

Definition acts (l : list Action) (st : t) : t :=
  fold_left (fun s a => act a s) l st.

(** The preloader is on display: it exists and lacks the class [hidden]. *)
Definition visible (st : t) : bool :=
  match preloaderEl st with
  | Some classes => negb (existsb (String.eqb "hidden") classes)
  | None => false
  end.

(** The page cannot scroll. *)
Definition scroll_locked (st : t) : bool :=
  String.eqb (body_overflow st) "hidden".

(** How many timer runs a queue still holds: a pending [hidePreloader]
    will queue a hiding of its own. *)
Definition weight (cb : Callback) : nat :=
  match cb with
  | hide_now => 1
  | call_hidePreloader => 2
  end.

Fixpoint pending_work (q : list (Z * Callback)) : nat :=
  match q with
  | [] => 0
  | (_, cb) :: rest => weight cb + pending_work rest
  end.

(** The element is in place and the page is locked exactly while the
    preloader is on display. *)
Definition in_step (st : t) : Prop :=
  is_Some (preloaderEl st) /\ visible st = scroll_locked st.

(** The calls left to the page when [init] found no element: those of
    [window.StorePreloader] and of the [load] listener. *)
Definition always_wired (a : Action) : Prop :=
  match a with
  | act_show _ | act_hide _ => True
  | _ => False
  end.

End Preloader.

(** ** [mysterious-effects.js] *)

Module MysteriousEffects.

(** An element of the document, by its class list; the document, by its
    elements in document order. *)
Definition Element : Type := list string.
Definition Document : Type := list Element.

(** [el.classList.contains(c)]. *)
Definition contains (c : string) (el : Element) : bool :=
  existsb (String.eqb c) el.

(** [document.querySelectorAll(sel).forEach(f)] for a selector that lists
    classes, [f] changing the element it is given. *)
Definition forEach_class (classes : list string) (f : Element -> Element)
    (doc : Document) : Document :=
  map (fun el => if existsb (fun c => contains c el) classes then f el else el)
      doc.

(** The same when [f] acts at index 0 only: on the first element of the
    class. *)
Fixpoint first_of_class (c : string) (f : Element -> Element)
    (doc : Document) : Document :=
  match doc with
  | [] => []
  | el :: rest =>
    if contains c el then f el :: rest
    else el :: first_of_class c f rest
  end.

(** [if (!el.classList.contains(c)) el.classList.add(c)]. *)
Definition add_if_missing (c : string) (el : Element) : Element :=
  if negb (contains c el) then DropStatus.tokens_add c el else el.

(** [enhanceExistingSections()]. *)
Definition enhanceExistingSections (doc : Document) : Document :=
  let doc1 :=
    forEach_class ["banner"; "image-banner"]
      (add_if_missing "mysterious-vignette") doc in
  let doc2 :=
    forEach_class ["product__media-wrapper"]
      (add_if_missing "mysterious-image-reveal") doc1 in
  let doc3 :=
    first_of_class "button--primary"
      (DropStatus.tokens_add "mysterious-pulse") doc2 in
  forEach_class ["banner__content"; "newsletter__wrapper"]
    (add_if_missing "mysterious-reveal-up") doc3.

(** The indices of the elements of the given classes, in document order,
    counted from [i]. *)
Fixpoint indices_of_class (classes : list string) (i : nat) (doc : Document)
  : list nat :=
  match doc with
  | [] => []
  | el :: rest =>
    if existsb (fun c => contains c el) classes
    then i :: indices_of_class classes (S i) rest
    else indices_of_class classes (S i) rest
  end.

(** The elements [initScrollReveal()] hands to the observer it creates, by
    their indices in the document; none, and no observer, when the query
    finds nothing. *)
Definition revealElements (doc : Document) : list nat :=
  indices_of_class ["mysterious-reveal"; "mysterious-reveal-up"] 0 doc.

(** The page as far as scroll reveal goes: the document and, for each
    observer created so far, the elements it observes. *)
Record Page : Type := mkPage {
  document : Document;
  observers : list (list nat)
}.

(** [initScrollReveal()], up to the calls of [observe]. *)
Definition initScrollReveal (p : Page) : Page :=
  match revealElements (document p) with
  | [] => p
  | targets => mkPage (document p) (observers p ++ [targets])%list
  end.

(** [enhanceExistingSections()] on a page. *)
Definition enhance_page (p : Page) : Page :=
  mkPage (enhanceExistingSections (document p)) (observers p).

(** The two calls in the order of [initAll()], and in the order of the
    [shopify:section:load] listener. *)
Definition reveal_then_enhance (p : Page) : Page :=
  enhance_page (initScrollReveal p).

Definition section_load (p : Page) : Page :=
  initScrollReveal (enhance_page p).

(** Whether some observer observes the element of index [i]. *)
Definition observed (i : nat) (p : Page) : bool :=
  existsb (existsb (Nat.eqb i)) (observers p).

(** One element under [initTextReveal()]: its text and visibility, and the
    variables of the closure of its timer, [None] once [clearInterval] has
    run or when no timer was started.  A string stands for its sequence of
    code units. *)
Record Closure : Type := mkClosure {
  text : string;
  charIndex : nat
}.

Record Revealing : Type := mkRevealing {
  textContent : string;
  visibility : string;
  revealInterval : option Closure
}.

(** [text.charAt(i)]. *)
Definition charAt (i : nat) (s : string) : string :=
  match String.get i s with
  | Some c => String c EmptyString
  | None => EmptyString
  end.

(** The body of the [forEach] of [initTextReveal()] on one element. *)
Definition initTextReveal
    (prefersReducedMotion : bool) (content visible : string) : Revealing :=
  if prefersReducedMotion then mkRevealing content visible None
  else mkRevealing "" "visible" (Some (mkClosure content 0)).

(** The callback of the timer of that element. *)
Definition reveal_tick (r : Revealing) : Revealing :=
  match revealInterval r with
  | None => r
  | Some c =>
    if (charIndex c <? String.length (text c))%nat
    then mkRevealing (textContent r ++ charAt (charIndex c) (text c))%string
                     (visibility r)
                     (Some (mkClosure (text c) (S (charIndex c))))
    else mkRevealing (textContent r) (visibility r) None
  end.

(** The timer comes due [k] times. *)
Fixpoint reveal_ticks (k : nat) (r : Revealing) : Revealing :=
  match k with
  | O => r
  | S k' => reveal_tick (reveal_ticks k' r)
  end.

(** Whether an element is of one of the classes. *)
Definition of_class (classes : list string) (el : Element) : bool :=
  existsb (fun c => contains c el) classes.

(** A step of [enhanceExistingSections] leaves an element as it is or adds
    the class [x] to it. *)
Definition maybe_added (x : string) (el el' : Element) : Prop :=
  el' = el \/ el' = DropStatus.tokens_add x el.

(** An element of the classes carries [c]. *)
Definition settled (classes : list string) (c : string) (el : Element)
  : Prop :=
  of_class classes el = true -> contains c el = true.

(** The first element of class [c], if there is one, carries [x]. *)
Fixpoint first_settled (c x : string) (doc : Document) : Prop :=
  match doc with
  | [] => True
  | el :: rest =>
    if contains c el then contains x el = true else first_settled c x rest
  end.

(** The classes [enhanceExistingSections] adds. *)
Definition added_classes : list string :=
  [ "mysterious-vignette"; "mysterious-image-reveal"; "mysterious-pulse";
    "mysterious-reveal-up" ].

(** [el'] has the classes of [el] and, besides, added classes only. *)
Definition grown (el el' : Element) : Prop :=
  forall c,
    (contains c el = true -> contains c el' = true) /\
    (contains c el' = true -> contains c el = true \/ In c added_classes).

End MysteriousEffects.

(** * Properties *)

(** Reads the fields of a countdown state built by the setters, without
    unfolding anything else. *)
Ltac read_fields :=
  cbn [DropCountdown.startDate DropCountdown.endDate DropCountdown.intervalId
       DropCountdown.daysEl DropCountdown.hoursEl DropCountdown.minutesEl
       DropCountdown.secondsEl DropCountdown.classList DropCountdown.timers
       DropCountdown.nextHandle DropCountdown.dispatched
       DropCountdown.setValues DropCountdown.classList_add
       DropCountdown.set_intervalId DropCountdown.clearInterval
       DropCountdown.setInterval_update DropCountdown.dispatchEvent].

Ltac read_fields_everywhere :=
  cbn [DropCountdown.startDate DropCountdown.endDate DropCountdown.intervalId
       DropCountdown.daysEl DropCountdown.hoursEl DropCountdown.minutesEl
       DropCountdown.secondsEl DropCountdown.classList DropCountdown.timers
       DropCountdown.nextHandle DropCountdown.dispatched] in *.

(** ** The status rule *)

Section StatusRule.

Implicit Types (clock s e : Z) (d : option Date).

Lemma set_and_after_instant d clock :
  set_and_after d (Date_now clock) = Spec.present_and_after (Spec.instant d) clock.
Proof. destruct d as [[[t|]]|]; reflexivity. Qed.

Lemma set_and_after_valid clock t :
  set_and_after (Some (mkDate (Finite t))) (Date_now clock) = (clock <? t).
Proof. reflexivity. Qed.

(** Once a boundary is behind, it stays behind. *)
Lemma set_and_after_false_later d clock clock' :
  clock <= clock' ->
  set_and_after d (Date_now clock) = false ->
  set_and_after d (Date_now clock') = false.
Proof.
  intros Hle. destruct d as [[[t|]]|]; cbn; try reflexivity.
  rewrite !Z.ltb_ge. lia.
Qed.

Lemma getStatus_statusOf (c : DropCountdown.t) clock :
  DropCountdown.getStatus c (Date_now clock)
  = Spec.statusOf clock (Spec.instant (DropCountdown.startDate c))
                        (Spec.instant (DropCountdown.endDate c)).
Proof.
  unfold DropCountdown.getStatus, Spec.statusOf.
  now rewrite !set_and_after_instant.
Qed.

Lemma status_at_statusOf (c : DropStatus.t) clock :
  DropStatus.status_at c (Date_now clock)
  = Spec.statusOf clock (Spec.instant (DropStatus.startDate c))
                        (Spec.instant (DropStatus.endDate c)).
Proof.
  unfold DropStatus.status_at, Spec.statusOf.
  now rewrite !set_and_after_instant.
Qed.

(** [ended] means that no boundary lies ahead. *)
Lemma getStatus_ended_iff (c : DropCountdown.t) (now : Date) :
  DropCountdown.getStatus c now = ended <->
  set_and_after (DropCountdown.startDate c) now = false /\
  set_and_after (DropCountdown.endDate c) now = false.
Proof.
  unfold DropCountdown.getStatus.
  destruct (set_and_after (DropCountdown.startDate c) now),
           (set_and_after (DropCountdown.endDate c) now);
    split; try discriminate; intuition discriminate.
Qed.

Lemma getStatus_ended_later (c : DropCountdown.t) clock clock' :
  clock <= clock' ->
  DropCountdown.getStatus c (Date_now clock) = ended ->
  DropCountdown.getStatus c (Date_now clock') = ended.
Proof.
  rewrite !getStatus_ended_iff. intros Hle [Hs He].
  split; eapply set_and_after_false_later; eassumption.
Qed.

End StatusRule.

(** C1: for every instant and every pair of optional boundaries, both
    [DropCountdown.getStatus] and the status computed by
    [DropStatus.updateStatus] return the status of the three-way rule
    (upcoming if the start is present and ahead, else live if the end is
    present and ahead, else ended); so the two agree on every input, and
    the result is one of the three statuses. *)
Theorem status_is_the_three_way_rule
    (clock : Z) (start_ end_ : option Date)
    (id : option positive) (dEl hEl mEl sEl : option string)
    (classes : list string) (running : gset positive) (next : positive)
    (events : list DropCountdown.CustomEvent)
    (attr : option string) (badge : option DropStatus.Badge)
    (btn : option DropStatus.AddButton) (panel : option string) :
  let countdown :=
    DropCountdown.mk start_ end_ id dEl hEl mEl sEl classes running next
                     events in
  let display := DropStatus.mk start_ end_ attr badge btn panel in
  let status :=
    Spec.statusOf clock (Spec.instant start_) (Spec.instant end_) in
  DropCountdown.getStatus countdown (Date_now clock) = status /\
  DropStatus.status_at display (Date_now clock) = status /\
  DropCountdown.getStatus countdown (Date_now clock)
  = DropStatus.status_at display (Date_now clock) /\
  (status = upcoming \/ status = live \/ status = ended).
Proof.
  intros countdown display status.
  pose proof (getStatus_statusOf countdown clock) as Hc.
  pose proof (status_at_statusOf display clock) as Hd.
  cbn in Hc, Hd. fold status in Hc, Hd.
  repeat split; try congruence.
  destruct status; auto.
Qed.

(** C2, as the code has it: with the end absent and the start present, the
    status at every instant at or after the start is ended, in both
    components. *)
Theorem started_without_end_is_ended
    (c : DropCountdown.t) (d : DropStatus.t) (s clock : Z) :
  DropCountdown.startDate c = Some (mkDate (Finite s)) ->
  DropCountdown.endDate c = None ->
  DropStatus.startDate d = Some (mkDate (Finite s)) ->
  DropStatus.endDate d = None ->
  s <= clock ->
  DropCountdown.getStatus c (Date_now clock) = ended /\
  DropStatus.status_at d (Date_now clock) = ended.
Proof.
  intros Hcs Hce Hds Hde Hle.
  unfold DropCountdown.getStatus, DropStatus.status_at.
  rewrite Hcs, Hce, Hds, Hde, set_and_after_valid.
  assert ((clock <? s) = false) as -> by (apply Z.ltb_ge; lia).
  split; reflexivity.
Qed.

(** A drop started at 1000 without end, looked at 2000. *)
Lemma started_without_end_is_ended_witness :
  DropCountdown.getStatus
    (DropCountdown.mk (Some (mkDate (Finite 1000))) None None None None None
                      None [] ∅ 1%positive [])
    (Date_now 2000) = ended /\
  DropStatus.status_at
    (DropStatus.mk (Some (mkDate (Finite 1000))) None None None None None)
    (Date_now 2000) = ended.
Proof.
  apply (started_without_end_is_ended _ _ 1000 2000);
    [reflexivity | reflexivity | reflexivity | reflexivity | lia].
Defined.

(** C2 fails as stated: a drop that started at 1000 and has no end is not
    live at 1000, nor at 2000. *)
Lemma started_without_end_is_not_live :
  let c :=
    DropCountdown.mk (Some (mkDate (Finite 1000))) None None None None None
                     None [] ∅ 1%positive [] in
  DropCountdown.startDate c = Some (mkDate (Finite 1000)) /\
  DropCountdown.endDate c = None /\
  DropCountdown.getStatus c (Date_now 1000) <> live /\
  DropCountdown.getStatus c (Date_now 2000) <> live.
Proof. cbn. repeat split; discriminate. Qed.

(** C4: with both boundaries present and the start before the end, the
    status never moves back as the clock advances, and from the end on it
    is ended at every instant. *)
Theorem status_never_moves_back
    (c : DropCountdown.t) (s e clock clock' : Z) :
  DropCountdown.startDate c = Some (mkDate (Finite s)) ->
  DropCountdown.endDate c = Some (mkDate (Finite e)) ->
  s < e ->
  clock <= clock' ->
  status_rank (DropCountdown.getStatus c (Date_now clock))
  <= status_rank (DropCountdown.getStatus c (Date_now clock')) /\
  (e <= clock ->
   DropCountdown.getStatus c (Date_now clock) = ended /\
   DropCountdown.getStatus c (Date_now clock') = ended).
Proof.
  intros Hs He Hlt Hle.
  unfold DropCountdown.getStatus.
  rewrite Hs, He, !set_and_after_valid.
  destruct (Z.ltb_spec clock s), (Z.ltb_spec clock' s),
           (Z.ltb_spec clock e), (Z.ltb_spec clock' e);
    cbn; split; try lia; intros; try lia; split; reflexivity.
Qed.

(** A drop from 1000 to 2000, looked at 2500 and at 3000. *)
Lemma status_never_moves_back_witness :
  let c :=
    DropCountdown.mk (Some (mkDate (Finite 1000))) (Some (mkDate (Finite 2000)))
                     None None None None None [] ∅ 1%positive [] in
  status_rank (DropCountdown.getStatus c (Date_now 2500))
  <= status_rank (DropCountdown.getStatus c (Date_now 3000)) /\
  DropCountdown.getStatus c (Date_now 2500) = ended /\
  DropCountdown.getStatus c (Date_now 3000) = ended.
Proof.
  intros c.
  destruct (status_never_moves_back c 1000 2000 2500 3000) as [Hrank Hend];
    [reflexivity | reflexivity | lia | lia |].
  split; [exact Hrank | apply Hend; lia].
Defined.

(** ** Digits *)

Section Digits.

Import DropCountdown.

(** A decimal numeral with fewer than two digits denotes at most nine. *)
Lemma short_numeral_small (d : Decimal.uint) :
  (String.length (NilZero.string_of_uint d) < 2)%nat ->
  (N.of_uint d <= 9)%N.
Proof.
  destruct d as [|d|d|d|d|d|d|d|d|d|d]; cbn; try lia;
    destruct d; cbn; intros H; try lia; vm_compute; discriminate.
Qed.

Lemma toString_two_digits (n : Z) :
  10 <= n -> (2 <= String.length (toString (Finite n)))%nat.
Proof.
  intros Hn. destruct n as [|p|p]; try lia.
  destruct (Nat.le_gt_cases 2 (String.length (toString (Finite (Z.pos p)))))
    as [Hlen|Hlen]; [exact Hlen | exfalso].
  cbn in Hlen. apply short_numeral_small in Hlen.
  pose proof (DecimalZ.of_to (Z.pos p)) as Hround.
  cbn in Hround. unfold Z.of_uint in Hround. unfold N.of_uint in Hlen. lia.
Qed.

(** Values of two digits and more are printed as they are. *)
Lemma padZero_unpadded (n : Z) :
  10 <= n -> padZero (Finite n) = toString (Finite n).
Proof.
  intros Hn. unfold padZero, padStart.
  apply toString_two_digits in Hn.
  destruct (Nat.leb_spec 2 (String.length (toString (Finite n))));
    [reflexivity | lia].
Qed.

(** Values of one digit get one leading zero. *)
Lemma padZero_padded (n : Z) :
  0 <= n <= 9 ->
  padZero (Finite n) = ("0" ++ toString (Finite n))%string /\
  String.length (padZero (Finite n)) = 2%nat.
Proof.
  intros Hn.
  assert (exists k : nat, n = Z.of_nat k /\ (k < 10)%nat) as (k & -> & Hk)
    by (exists (Z.to_nat n); lia).
  do 10 (destruct k as [|k]; [split; reflexivity |]).
  lia.
Qed.

(** The four quotients are the digits of [diff] in the mixed radix
    days : 24 hours : 60 minutes : 60 seconds : 1000 milliseconds, the
    milliseconds being dropped. *)
Lemma quotients_floor (diff : Z) :
  0 < diff ->
  exists D H M S ms,
    days_of (Finite diff) = Finite D /\
    hours_of (Finite diff) = Finite H /\
    minutes_of (Finite diff) = Finite M /\
    seconds_of (Finite diff) = Finite S /\
    diff = (((D * 24 + H) * 60 + M) * 60 + S) * 1000 + ms /\
    0 <= D /\ 0 <= H < 24 /\ 0 <= M < 60 /\ 0 <= S < 60 /\ 0 <= ms < 1000.
Proof.
  intros Hpos.
  unfold days_of, hours_of, minutes_of, seconds_of, floor_div, num_rem.
  rewrite !Z.rem_mod_nonneg by lia.
  change (1000 * 60 * 60 * 24) with 86400000.
  change (1000 * 60 * 60) with 3600000.
  change (1000 * 60) with 60000.
  exists (diff / 86400000), (diff mod 86400000 / 3600000),
         (diff mod 3600000 / 60000), (diff mod 60000 / 1000),
         (diff mod 1000).
  repeat (split; [reflexivity |]).
  Z.div_mod_to_equations. lia.
Qed.

End Digits.

(** C8: the quotients of [update] are floored, never rounded: 90,061,001 ms
    gives 1 day, 1 hour, 1 minute and 1 second, shown as "01" in each slot,
    and in general the quotients are the mixed-radix digits of [diff] with
    the milliseconds dropped; [padZero] prints 0 to 9 with one leading zero
    (5 as "05") and 10 and more as they are (42 as "42"). *)
Theorem digits_floored_and_padded :
  (DropCountdown.days_of (Finite 90061001),
   DropCountdown.hours_of (Finite 90061001),
   DropCountdown.minutes_of (Finite 90061001),
   DropCountdown.seconds_of (Finite 90061001))
  = (Finite 1, Finite 1, Finite 1, Finite 1) /\
  (let w :=
     DropCountdown.update 0
       (DropCountdown.mk (Some (mkDate (Finite 90061001))) None
          (Some 1%positive) (Some "") (Some "") (Some "") (Some "") []
          {[1%positive]} 2%positive []) in
   (DropCountdown.daysEl w, DropCountdown.hoursEl w,
    DropCountdown.minutesEl w, DropCountdown.secondsEl w)
   = (Some "01", Some "01", Some "01", Some "01")) /\
  (forall diff, 0 < diff ->
     exists D H M S ms,
       DropCountdown.days_of (Finite diff) = Finite D /\
       DropCountdown.hours_of (Finite diff) = Finite H /\
       DropCountdown.minutes_of (Finite diff) = Finite M /\
       DropCountdown.seconds_of (Finite diff) = Finite S /\
       diff = (((D * 24 + H) * 60 + M) * 60 + S) * 1000 + ms /\
       0 <= D /\ 0 <= H < 24 /\ 0 <= M < 60 /\ 0 <= S < 60 /\
       0 <= ms < 1000) /\
  DropCountdown.padZero (Finite 5) = "05" /\
  DropCountdown.padZero (Finite 42) = "42" /\
  (forall n, 0 <= n <= 9 ->
     DropCountdown.padZero (Finite n) = ("0" ++ toString (Finite n))%string /\
     String.length (DropCountdown.padZero (Finite n)) = 2%nat) /\
  (forall n, 10 <= n ->
     DropCountdown.padZero (Finite n) = toString (Finite n)).
Proof.
  split; [reflexivity |].
  split; [reflexivity |].
  split; [exact quotients_floor |].
  split; [reflexivity |].
  split; [reflexivity |].
  split; [exact padZero_padded | exact padZero_unpadded].
Qed.

(** ** The countdown *)

Section Countdown.

Import DropCountdown.

Implicit Types (w : t) (clock : Z) (id : positive).

Local Arguments String.eqb : simpl never.

Lemma animateValue_new (el newValue : string) :
  animateValue el newValue = newValue.
Proof.
  unfold animateValue. destruct (String.eqb_spec el newValue); cbn; congruence.
Qed.

Lemma setValue_zero (el : option string) :
  setValue el (Finite 0) = zeroed el.
Proof. destruct el; cbn; [now rewrite animateValue_new | reflexivity]. Qed.

Lemma zeroed_idem (el : option string) : zeroed (zeroed el) = zeroed el.
Proof. now destruct el. Qed.

Lemma existsb_added (token : string) (l : list string) :
  existsb (String.eqb token) (l ++ [token])%list = true.
Proof.
  rewrite existsb_app. cbn. rewrite String.eqb_refl. apply orb_true_iff.
  right. reflexivity.
Qed.

(** Two states with the same fields are the same state. *)
Lemma state_ext w w' :
  startDate w = startDate w' -> endDate w = endDate w' ->
  intervalId w = intervalId w' ->
  daysEl w = daysEl w' -> hoursEl w = hoursEl w' ->
  minutesEl w = minutesEl w' -> secondsEl w = secondsEl w' ->
  classList w = classList w' -> timers w = timers w' ->
  nextHandle w = nextHandle w' -> dispatched w = dispatched w' ->
  w = w'.
Proof.
  destruct w, w'. read_fields. intros. subst. reflexivity.
Qed.

(** [showEnded] field by field. *)
Lemma showEnded_fields w :
  let w' := showEnded w in
  intervalId w' = None /\
  timers w' = match intervalId w with
              | Some id => timers w ∖ {[id]}
              | None => timers w
              end /\
  daysEl w' = zeroed (daysEl w) /\
  hoursEl w' = zeroed (hoursEl w) /\
  minutesEl w' = zeroed (minutesEl w) /\
  secondsEl w' = zeroed (secondsEl w) /\
  classList w' =
  (if existsb (String.eqb "drop-countdown--ended") (classList w)
   then classList w
   else (classList w ++ ["drop-countdown--ended"])%list) /\
  startDate w' = startDate w /\ endDate w' = endDate w /\
  nextHandle w' = nextHandle w /\ dispatched w' = dispatched w.
Proof.
  unfold showEnded. read_fields. rewrite !setValue_zero.
  destruct (intervalId w) as [id|] eqn:Hid; read_fields; rewrite ?Hid;
    repeat split; reflexivity.
Qed.

Lemma showEnded_class w :
  existsb (String.eqb "drop-countdown--ended") (classList (showEnded w)) = true.
Proof.
  destruct (showEnded_fields w) as (_ & _ & _ & _ & _ & _ & -> & _).
  destruct (existsb (String.eqb "drop-countdown--ended") (classList w))
    eqn:Hin; [exact Hin | apply existsb_added].
Qed.

Lemma showEnded_idem w : showEnded (showEnded w) = showEnded w.
Proof.
  pose proof (showEnded_class w) as Hclass.
  destruct (showEnded_fields (showEnded w))
    as (Hid & Htm & Hd & Hh & Hm & Hs & Hcl & Hsd & Hed & Hnh & Hev).
  destruct (showEnded_fields w)
    as (Hid' & _ & Hd' & Hh' & Hm' & Hs' & _).
  rewrite Hid' in Htm. rewrite Hclass in Hcl.
  rewrite Hd', zeroed_idem, <- Hd' in Hd.
  rewrite Hh', zeroed_idem, <- Hh' in Hh.
  rewrite Hm', zeroed_idem, <- Hm' in Hm.
  rewrite Hs', zeroed_idem, <- Hs' in Hs.
  apply state_ext; congruence.
Qed.

Lemma clearInterval_idem id w :
  clearInterval id (clearInterval id w) = clearInterval id w.
Proof.
  apply state_ext; try reflexivity. read_fields.
  apply set_eq. intros x. rewrite !elem_of_difference. tauto.
Qed.

(** A boundary that lies ahead is a valid date, strictly later than now. *)
Lemma set_and_after_true (d : option Date) clock :
  set_and_after d (Date_now clock) = true ->
  exists t, d = Some (mkDate (Finite t)) /\ clock < t.
Proof.
  destruct d as [[[t|]]|]; cbn; try discriminate.
  intros H. exists t. split; [reflexivity | now apply Z.ltb_lt].
Qed.

(** The branches [update] really takes: the target always exists and lies
    strictly ahead, so the digits are rendered, or the status is ended. *)
Lemma update_cases w clock :
  (getStatus w (Date_now clock) = ended /\ update clock w = showEnded w) \/
  (exists t,
     (getStatus w (Date_now clock) = upcoming /\
      startDate w = Some (mkDate (Finite t)) \/
      getStatus w (Date_now clock) = live /\
      endDate w = Some (mkDate (Finite t))) /\
     clock < t /\
     update clock w =
     setValues (days_of (Finite (t - clock))) (hours_of (Finite (t - clock)))
               (minutes_of (Finite (t - clock)))
               (seconds_of (Finite (t - clock))) w).
Proof.
  unfold update, getStatus.
  destruct (set_and_after (startDate w) (Date_now clock)) eqn:Hs.
  - right. apply set_and_after_true in Hs as (t & Hd & Hlt).
    exists t. rewrite Hd. cbn.
    destruct (Z.leb_spec (t - clock) 0); [lia |]. auto.
  - destruct (set_and_after (endDate w) (Date_now clock)) eqn:He.
    + right. apply set_and_after_true in He as (t & Hd & Hlt).
      exists t. rewrite Hd. cbn.
      destruct (Z.leb_spec (t - clock) 0); [lia |]. auto.
    + left. auto.
Qed.

(** [update] never dispatches an event. *)
Lemma update_dispatched w clock : dispatched (update clock w) = dispatched w.
Proof.
  destruct (update_cases w clock) as [[_ ->] | (t & _ & _ & ->)].
  - apply (showEnded_fields w).
  - reflexivity.
Qed.

Lemma ticks_dispatched id (clocks : list Z) w :
  dispatched (ticks id clocks w) = dispatched w.
Proof.
  revert w. induction clocks as [|clock rest IH]; intros w; cbn.
  - reflexivity.
  - rewrite IH. unfold fire. case_decide; [apply update_dispatched | reflexivity].
Qed.

(** With no timer running, no callback ever runs again. *)
Lemma ticks_stopped id (clocks : list Z) w :
  timers w = ∅ -> ticks id clocks w = w.
Proof.
  intros Hnone. induction clocks as [|clock rest IH]; cbn.
  - reflexivity.
  - unfold fire. case_decide as Hin; [| exact IH].
    rewrite Hnone in Hin. set_solver.
Qed.

End Countdown.

Section CountdownRuns.

Import DropCountdown.

Implicit Types (w : t) (clock : Z) (id : positive) (h : Host).

(** A tick that finds the status ended: the timer of the component is
    stopped, its handle forgotten, and every slot shows zero. *)
Lemma update_ended w clock id :
  intervalId w = Some id ->
  getStatus w (Date_now clock) = ended ->
  let w' := update clock w in
  intervalId w' = None /\
  timers w' = timers w ∖ {[id]} /\
  daysEl w' = zeroed (daysEl w) /\
  hoursEl w' = zeroed (hoursEl w) /\
  minutesEl w' = zeroed (minutesEl w) /\
  secondsEl w' = zeroed (secondsEl w) /\
  existsb (String.eqb "drop-countdown--ended") (classList w') = true.
Proof.
  intros Hid Hst.
  destruct (update_cases w clock) as [[_ Hup] | (t & [[Hs _]|[Hs _]] & _)];
    try congruence.
  cbv zeta. rewrite Hup.
  destruct (showEnded_fields w) as (H1 & H2 & H3 & H4 & H5 & H6 & _).
  rewrite Hid in H2.
  repeat (split; [assumption |]). apply showEnded_class.
Qed.

(** Attaching a host that is already over: the ended presentation is shown
    at once, and the timer is started all the same. *)
Lemma connected_ended h clock :
  (is_Some (dataset_startDate h) \/ is_Some (dataset_endDate h)) ->
  let w0 := connectedCallback h clock constructor in
  getStatus w0 (Date_now clock) = ended ->
  startDate w0 = dataset_startDate h /\
  endDate w0 = dataset_endDate h /\
  daysEl w0 = zeroed (countdown_days h) /\
  hoursEl w0 = zeroed (countdown_hours h) /\
  minutesEl w0 = zeroed (countdown_minutes h) /\
  secondsEl w0 = zeroed (countdown_seconds h) /\
  existsb (String.eqb "drop-countdown--ended") (classList w0) = true /\
  intervalId w0 = Some 1%positive /\
  timers w0 = {[1%positive]}.
Proof.
  intros Hset w0.
  set (w2 := mk (dataset_startDate h) (dataset_endDate h) None
                (countdown_days h) (countdown_hours h) (countdown_minutes h)
                (countdown_seconds h) [] ∅ 1%positive []).
  assert (w0 = setInterval_update (update clock w2)) as Hw0.
  { subst w0 w2. unfold connectedCallback, constructor.
    read_fields.
    destruct (dataset_startDate h), (dataset_endDate h); try reflexivity.
    destruct Hset as [[? Hs]|[? Hs]]; discriminate. }
  assert (getStatus w0 (Date_now clock) = getStatus w2 (Date_now clock)) as ->.
  { rewrite Hw0. unfold getStatus, setInterval_update.
    cbn [startDate endDate].
    destruct (update_cases w2 clock) as [[_ ->] | (t & _ & _ & ->)].
    - destruct (showEnded_fields w2)
        as (_ & _ & _ & _ & _ & _ & _ & -> & -> & _).
      reflexivity.
    - reflexivity. }
  intros Hst.
  destruct (update_cases w2 clock) as [[_ Hup] | (t & [[Hs _]|[Hs _]] & _)];
    try congruence.
  rewrite Hw0, Hup.
  destruct (showEnded_fields w2)
    as (H1 & H2 & H3 & H4 & H5 & H6 & H7 & H8 & H9 & H10 & _).
  pose proof (showEnded_class w2) as Hclass.
  unfold setInterval_update.
  read_fields.
  rewrite H2, H10. subst w2.
  read_fields_everywhere.
  repeat (split; [assumption || reflexivity |]).
  apply set_eq. intros x. rewrite elem_of_union, elem_of_empty. tauto.
Qed.

End CountdownRuns.

(** C3, on the code: a countdown attached at 0 to a drop starting at 5000
    with no end is upcoming and has its timer running, yet whatever the
    instants at which the timer comes due, no event is ever dispatched; in
    particular after the ticks at 1000, ..., 6000 the status is ended, the
    slots show zero, the timer is stopped, and no [drop-status-change] was
    dispatched. *)
Theorem countdown_never_dispatches :
  let h :=
    DropCountdown.mkHost (Some (mkDate (Finite 5000))) None
      (Some "") (Some "") (Some "") (Some "") in
  let w0 := DropCountdown.connectedCallback h 0 DropCountdown.constructor in
  DropCountdown.getStatus w0 (Date_now 0) = upcoming /\
  DropCountdown.intervalId w0 = Some 1%positive /\
  (forall clocks : list Z,
     DropCountdown.dispatched (DropCountdown.ticks 1 clocks w0) = []) /\
  let w6 :=
    DropCountdown.ticks 1 [1000; 2000; 3000; 4000; 5000; 6000] w0 in
  DropCountdown.getStatus w6 (Date_now 6000) = ended /\
  DropCountdown.dispatched w6 = [] /\
  DropCountdown.intervalId w6 = None /\
  (DropCountdown.daysEl w6, DropCountdown.hoursEl w6,
   DropCountdown.minutesEl w6, DropCountdown.secondsEl w6)
  = (Some "00", Some "00", Some "00", Some "00").
Proof.
  intros h w0.
  split; [vm_compute; reflexivity |].
  split; [vm_compute; reflexivity |].
  split.
  - intros clocks. rewrite ticks_dispatched. vm_compute. reflexivity.
  - intros w6. repeat split; vm_compute; reflexivity.
Qed.

(** C5 fails as stated: a countdown attached at 9000 to a drop that
    started at 5000 and has no end is ended at once, and still leaves
    [connectedCallback] with a timer running. *)
Lemma ended_at_start_still_schedules :
  let h :=
    DropCountdown.mkHost (Some (mkDate (Finite 5000))) None
      (Some "") (Some "") (Some "") (Some "") in
  let w0 := DropCountdown.connectedCallback h 9000 DropCountdown.constructor in
  DropCountdown.getStatus w0 (Date_now 9000) = ended /\
  DropCountdown.intervalId w0 = Some 1%positive /\
  1%positive ∈ DropCountdown.timers w0 /\
  DropCountdown.fire 1 10000 w0 <> w0.
Proof.
  intros h w0.
  assert (DropCountdown.getStatus w0 (Date_now 9000) = ended) as Hst
    by (vm_compute; reflexivity).
  destruct (connected_ended h 9000) as (_ & _ & _ & _ & _ & _ & _ & Hid & Htm);
    [left; eexists; reflexivity | exact Hst |].
  fold w0 in Hid, Htm.
  split; [exact Hst |]. split; [exact Hid |].
  split; [rewrite Htm; now apply elem_of_singleton |].
  intros Heq. apply (f_equal DropCountdown.intervalId) in Heq.
  rewrite Hid in Heq. vm_compute in Heq. discriminate.
Qed.

(** C5, as the code has it: when the status is already ended as the
    component is attached, every slot shows zero and the ended class is set
    at once, but the timer is started all the same; the first time it comes
    due, at any later instant, it is stopped and its handle forgotten, and
    no callback changes the component any more.  In general a tick that
    finds the status ended stops the only timer for good and zeroes every
    slot. *)
Theorem ended_presentation_then_timer_stops :
  (forall (h : DropCountdown.Host) (clock clock' : Z),
     (is_Some (DropCountdown.dataset_startDate h) \/
      is_Some (DropCountdown.dataset_endDate h)) ->
     let w0 :=
       DropCountdown.connectedCallback h clock DropCountdown.constructor in
     DropCountdown.getStatus w0 (Date_now clock) = ended ->
     clock <= clock' ->
     (DropCountdown.daysEl w0, DropCountdown.hoursEl w0,
      DropCountdown.minutesEl w0, DropCountdown.secondsEl w0)
     = (DropCountdown.zeroed (DropCountdown.countdown_days h),
        DropCountdown.zeroed (DropCountdown.countdown_hours h),
        DropCountdown.zeroed (DropCountdown.countdown_minutes h),
        DropCountdown.zeroed (DropCountdown.countdown_seconds h)) /\
     existsb (String.eqb "drop-countdown--ended")
             (DropCountdown.classList w0) = true /\
     DropCountdown.intervalId w0 = Some 1%positive /\
     DropCountdown.timers w0 = {[1%positive]} /\
     let w1 := DropCountdown.fire 1 clock' w0 in
     DropCountdown.intervalId w1 = None /\
     DropCountdown.timers w1 = ∅ /\
     (DropCountdown.daysEl w1, DropCountdown.hoursEl w1,
      DropCountdown.minutesEl w1, DropCountdown.secondsEl w1)
     = (DropCountdown.daysEl w0, DropCountdown.hoursEl w0,
        DropCountdown.minutesEl w0, DropCountdown.secondsEl w0) /\
     forall id clocks, DropCountdown.ticks id clocks w1 = w1) /\
  (forall (w : DropCountdown.t) (id : positive) (clock : Z),
     DropCountdown.intervalId w = Some id ->
     DropCountdown.timers w = {[id]} ->
     DropCountdown.getStatus w (Date_now clock) = ended ->
     let w' := DropCountdown.fire id clock w in
     DropCountdown.intervalId w' = None /\
     DropCountdown.timers w' = ∅ /\
     (DropCountdown.daysEl w', DropCountdown.hoursEl w',
      DropCountdown.minutesEl w', DropCountdown.secondsEl w')
     = (DropCountdown.zeroed (DropCountdown.daysEl w),
        DropCountdown.zeroed (DropCountdown.hoursEl w),
        DropCountdown.zeroed (DropCountdown.minutesEl w),
        DropCountdown.zeroed (DropCountdown.secondsEl w)) /\
     existsb (String.eqb "drop-countdown--ended")
             (DropCountdown.classList w') = true /\
     forall id' clocks, DropCountdown.ticks id' clocks w' = w').
Proof.
  assert (forall (w : DropCountdown.t) (id : positive) (clock : Z),
     DropCountdown.intervalId w = Some id ->
     DropCountdown.timers w = {[id]} ->
     DropCountdown.getStatus w (Date_now clock) = ended ->
     let w' := DropCountdown.fire id clock w in
     DropCountdown.intervalId w' = None /\
     DropCountdown.timers w' = ∅ /\
     (DropCountdown.daysEl w', DropCountdown.hoursEl w',
      DropCountdown.minutesEl w', DropCountdown.secondsEl w')
     = (DropCountdown.zeroed (DropCountdown.daysEl w),
        DropCountdown.zeroed (DropCountdown.hoursEl w),
        DropCountdown.zeroed (DropCountdown.minutesEl w),
        DropCountdown.zeroed (DropCountdown.secondsEl w)) /\
     existsb (String.eqb "drop-countdown--ended")
             (DropCountdown.classList w') = true /\
     forall id' clocks, DropCountdown.ticks id' clocks w' = w') as General.
  { intros w id clock Hid Htm Hst w'.
    assert (w' = DropCountdown.update clock w) as Hw'.
    { subst w'. unfold DropCountdown.fire. case_decide as Hin; [reflexivity |].
      exfalso. apply Hin. rewrite Htm. now apply elem_of_singleton. }
    destruct (update_ended w clock id Hid Hst)
      as (H1 & H2 & H3 & H4 & H5 & H6 & H7).
    rewrite <- Hw' in H1, H2, H3, H4, H5, H6, H7.
    assert (DropCountdown.timers w' = ∅) as Hnone.
    { rewrite H2, Htm. apply set_eq. intros x.
      rewrite elem_of_difference, elem_of_empty. tauto. }
    repeat split; try assumption.
    - now rewrite H3, H4, H5, H6.
    - intros id' clocks. now apply ticks_stopped. }
  split; [| exact General].
  intros h clock clock' Hset w0 Hst Hle.
  destruct (connected_ended h clock Hset Hst)
    as (Hsd & Hed & H3 & H4 & H5 & H6 & H7 & Hid & Htm).
  fold w0 in Hsd, Hed, H3, H4, H5, H6, H7, Hid, Htm.
  assert (DropCountdown.getStatus w0 (Date_now clock') = ended) as Hst'
    by (eapply getStatus_ended_later; eassumption).
  destruct (General w0 1%positive clock' Hid Htm Hst')
    as (G1 & G2 & G3 & _ & G5).
  repeat split; try assumption.
  - now rewrite H3, H4, H5, H6.
  - rewrite G3, H3, H4, H5, H6. now rewrite !zeroed_idem.
Qed.

(** A drop started at 5000 without end, attached at 9000, its timer coming
    due at 10000. *)
Lemma ended_presentation_then_timer_stops_witness :
  let h :=
    DropCountdown.mkHost (Some (mkDate (Finite 5000))) None
      (Some "") (Some "") (Some "") (Some "") in
  let w0 := DropCountdown.connectedCallback h 9000 DropCountdown.constructor in
  let w1 := DropCountdown.fire 1 10000 w0 in
  DropCountdown.intervalId w0 = Some 1%positive /\
  DropCountdown.intervalId w1 = None /\
  DropCountdown.timers w1 = ∅.
Proof.
  intros h w0 w1.
  destruct (proj1 ended_presentation_then_timer_stops h 9000 10000)
    as (_ & _ & Hid & _ & Hid1 & Htm1 & _);
    [left; eexists; reflexivity | vm_compute; reflexivity | lia |].
  repeat split; assumption.
Defined.

(** C9: [showEnded] run a second time changes nothing, every slot showing
    zero after the first run already; [disconnectedCallback] after
    [showEnded] changes nothing, and run a second time it changes nothing
    either.  No step of these methods can throw: each element is tested
    before it is written, and clearing a stopped timer does nothing. *)
Theorem ended_and_stop_idempotent (w : DropCountdown.t) :
  DropCountdown.showEnded (DropCountdown.showEnded w)
  = DropCountdown.showEnded w /\
  (DropCountdown.daysEl (DropCountdown.showEnded w),
   DropCountdown.hoursEl (DropCountdown.showEnded w),
   DropCountdown.minutesEl (DropCountdown.showEnded w),
   DropCountdown.secondsEl (DropCountdown.showEnded w))
  = (DropCountdown.zeroed (DropCountdown.daysEl w),
     DropCountdown.zeroed (DropCountdown.hoursEl w),
     DropCountdown.zeroed (DropCountdown.minutesEl w),
     DropCountdown.zeroed (DropCountdown.secondsEl w)) /\
  DropCountdown.disconnectedCallback (DropCountdown.showEnded w)
  = DropCountdown.showEnded w /\
  DropCountdown.disconnectedCallback (DropCountdown.disconnectedCallback w)
  = DropCountdown.disconnectedCallback w.
Proof.
  destruct (showEnded_fields w) as (Hid & _ & H3 & H4 & H5 & H6 & _).
  split; [apply showEnded_idem |].
  split; [now rewrite H3, H4, H5, H6 |].
  split.
  - unfold DropCountdown.disconnectedCallback. now rewrite Hid.
  - unfold DropCountdown.disconnectedCallback at 2.
    destruct (DropCountdown.intervalId w) as [id|] eqn:Hw.
    + unfold DropCountdown.disconnectedCallback.
      change (DropCountdown.intervalId (DropCountdown.clearInterval id w))
        with (DropCountdown.intervalId w).
      rewrite Hw. apply clearInterval_idem.
    + unfold DropCountdown.disconnectedCallback. now rewrite Hw.
Qed.

(** ** The status display *)

(** Each of the three statuses is the status of some drop at some
    instant. *)
Lemma every_status_arises (status : Status) :
  exists (w : DropStatus.t) (clock : Z),
    DropStatus.status_at w (Date_now clock) = status.
Proof.
  destruct status.
  - exists (DropStatus.mk (Some (mkDate (Finite 10))) None None None None None), 0.
    reflexivity.
  - exists (DropStatus.mk None (Some (mkDate (Finite 10))) None None None None), 0.
    reflexivity.
  - exists (DropStatus.mk None None None None None None), 0.
    reflexivity.
Qed.

(** C6: after [updateStatus], whatever the status it computed: the badge,
    if there is one, carries the label of the status ("Coming Soon",
    "Drop Live", "Drop Ended"); the button, if there is one, is enabled
    exactly when the status is live, and otherwise reads "Coming Soon" when
    upcoming and "Sold Out" when ended; the notify section, if there is
    one, is displayed ("flex") exactly when the status is not live and
    hidden ("none") exactly when it is. *)
Theorem status_display_mapping (clock : Z) (w : DropStatus.t) :
  let status := DropStatus.status_at w (Date_now clock) in
  let w' := DropStatus.updateStatus clock w in
  (forall b, DropStatus.statusBadge w = Some b ->
     exists b', DropStatus.statusBadge w' = Some b' /\
       DropStatus.className b'
       = ("drop-status drop-status--" ++ status_string status)%string /\
       forall old, DropStatus.textEl b = Some old ->
         DropStatus.textEl b'
         = Some (match status with
                 | upcoming => "Coming Soon"
                 | live => "Drop Live"
                 | ended => "Drop Ended"
                 end)) /\
  (forall b, DropStatus.addButton w = Some b ->
     exists b', DropStatus.addButton w' = Some b' /\
       (DropStatus.disabled b' = false <-> status = live) /\
       (status = live -> DropStatus.textContent b' = "Add to Cart") /\
       (status = upcoming ->
        DropStatus.disabled b' = true /\
        DropStatus.textContent b' = "Coming Soon") /\
       (status = ended ->
        DropStatus.disabled b' = true /\
        DropStatus.textContent b' = "Sold Out")) /\
  (forall p, DropStatus.notifySection w = Some p ->
     (DropStatus.notifySection w' = Some "flex" <-> status <> live) /\
     (DropStatus.notifySection w' = Some "none" <-> status = live)) /\
  DropStatus.data_status w' = Some (status_string status).
Proof.
  intros status w'. subst w'. unfold DropStatus.updateStatus.
  fold status. cbn [DropStatus.statusBadge DropStatus.addButton
                    DropStatus.notifySection DropStatus.data_status].
  split; [| split; [| split; [| reflexivity]]].
  - intros b ->. eexists. split; [reflexivity |]. split; [reflexivity |].
    intros old Hold. cbn. rewrite Hold. now destruct status.
  - intros b ->. eexists. split; [reflexivity |].
    destruct status; cbn; repeat split; intros; congruence.
  - intros p ->. unfold DropStatus.update_notify.
    destruct status; cbn; split; split; intros; congruence.
Qed.

(** ** The notify form *)

Section Notify.

Import DropNotify.

Implicit Types (w : t) (email : string) (b : Button) (r : Settled).

Lemma nonempty_length email :
  email <> "" -> (String.length email =? 0)%nat = false.
Proof. destruct email; [congruence | reflexivity]. Qed.

Lemma snoc_neq {A} (l : list A) (x : A) : (l ++ [x])%list <> l.
Proof.
  intros H. apply (f_equal (@List.length A)) in H.
  rewrite length_app in H. cbn in H. lia.
Qed.

(** With an email typed and the button in place, [handleSubmit] reaches
    [fetch] with the button disabled and the request sent. *)
Lemma handleSubmit_begin_sends w email b :
  input w = Some email -> email <> "" -> button w = Some b ->
  handleSubmit_begin w =
  inr (mk (form w) (Some email) (Some (mkButton true "Submitting..."))
          (successMessage w) (fetched w ++ [contact_request email])%list
          (console_error w)).
Proof.
  intros Hin Hne Hb. unfold handleSubmit_begin.
  rewrite Hin, (nonempty_length _ Hne), Hb. cbn. rewrite Hin. reflexivity.
Qed.

(** The run that ends in the success branch. *)
Lemma handleSubmit_fulfilled w email b (status : Z) :
  input w = Some email -> email <> "" -> button w = Some b ->
  handleSubmit (Fulfilled status) w =
  Done (mk (match form w with Some _ => Some "none" | None => None end)
           (Some email) (Some (mkButton true "Submitting..."))
           (match successMessage w with
            | Some _ => Some "flex"
            | None => None
            end)
           (fetched w ++ [contact_request email])%list (console_error w)).
Proof.
  intros Hin Hne Hb. unfold handleSubmit.
  rewrite (handleSubmit_begin_sends w email b Hin Hne Hb). reflexivity.
Qed.

(** The run that ends in the [catch] branch. *)
Lemma handleSubmit_rejected w email b (reason : string) :
  input w = Some email -> email <> "" -> button w = Some b ->
  handleSubmit (Rejected reason) w =
  Done (mk (form w) (Some email) (Some (mkButton false "Notify Me"))
           (successMessage w) (fetched w ++ [contact_request email])%list
           (console_error w ++
            [("Error submitting notify form: " ++ reason)%string])%list).
Proof.
  intros Hin Hne Hb. unfold handleSubmit.
  rewrite (handleSubmit_begin_sends w email b Hin Hne Hb). reflexivity.
Qed.

End Notify.

(** C7 fails as stated: a button that read "Remind me" before the
    submission reads "Notify Me" after a rejected [fetch]; the label it bore
    is saved nowhere and is not restored. *)
Lemma notify_label_not_restored :
  let w :=
    DropNotify.mk (Some "") (Some "a@b.com")
      (Some (DropNotify.mkButton false "Remind me")) (Some "none") [] [] in
  exists w',
    DropNotify.handleSubmit (DropNotify.Rejected "Failed to fetch") w
    = DropNotify.Done w' /\
    DropNotify.button w' = Some (DropNotify.mkButton false "Notify Me") /\
    (DropNotify.textContent <$> DropNotify.button w')
    <> (DropNotify.textContent <$> DropNotify.button w).
Proof.
  intros w. eexists. split; [reflexivity |].
  split; [reflexivity | discriminate].
Qed.

(** C7, as the code has it: with a non-empty email typed and the button in
    place: when [fetch] is fulfilled the form is hidden, the success
    message shown, the button left disabled under "Submitting...", and
    nothing is logged; when [fetch] is rejected the button is enabled again
    under the fixed label "Notify Me", whatever it read before (so it is
    as before the submission exactly when it was enabled and read
    "Notify Me"), the form and the success message are left as they were,
    and one line is logged. *)
Theorem notify_submit_outcomes
    (w : DropNotify.t) (email : string) (b : DropNotify.Button) :
  DropNotify.input w = Some email ->
  email <> "" ->
  DropNotify.button w = Some b ->
  (forall status, exists w',
     DropNotify.handleSubmit (DropNotify.Fulfilled status) w
     = DropNotify.Done w' /\
     (forall display, DropNotify.form w = Some display ->
        DropNotify.form w' = Some "none") /\
     (forall display, DropNotify.successMessage w = Some display ->
        DropNotify.successMessage w' = Some "flex") /\
     DropNotify.button w' = Some (DropNotify.mkButton true "Submitting...") /\
     DropNotify.console_error w' = DropNotify.console_error w) /\
  (forall reason, exists w',
     DropNotify.handleSubmit (DropNotify.Rejected reason) w
     = DropNotify.Done w' /\
     DropNotify.button w' = Some (DropNotify.mkButton false "Notify Me") /\
     (DropNotify.button w' = DropNotify.button w <->
      b = DropNotify.mkButton false "Notify Me") /\
     DropNotify.form w' = DropNotify.form w /\
     DropNotify.successMessage w' = DropNotify.successMessage w /\
     DropNotify.console_error w'
     = (DropNotify.console_error w ++
        [("Error submitting notify form: " ++ reason)%string])%list).
Proof.
  intros Hin Hne Hb. split.
  - intros status. eexists.
    split; [apply (handleSubmit_fulfilled w email b); assumption |].
    cbn. split; [intros display -> | split; [intros display -> |]]; auto.
  - intros reason. eexists.
    split; [apply (handleSubmit_rejected w email b); assumption |].
    cbn. split; [reflexivity |].
    split; [| repeat split].
    rewrite Hb. split; [intros H; now injection H | now intros ->].
Qed.

(** The address a@b.com submitted from a form whose button reads
    "Remind me". *)
Lemma notify_submit_outcomes_witness :
  let w :=
    DropNotify.mk (Some "") (Some "a@b.com")
      (Some (DropNotify.mkButton false "Remind me")) (Some "none") [] [] in
  (exists w',
     DropNotify.handleSubmit (DropNotify.Fulfilled 200) w
     = DropNotify.Done w' /\
     DropNotify.form w' = Some "none" /\
     DropNotify.successMessage w' = Some "flex" /\
     DropNotify.button w' = Some (DropNotify.mkButton true "Submitting...")) /\
  (exists w',
     DropNotify.handleSubmit (DropNotify.Rejected "Failed to fetch") w
     = DropNotify.Done w' /\
     DropNotify.button w' = Some (DropNotify.mkButton false "Notify Me") /\
     DropNotify.button w' <> DropNotify.button w /\
     DropNotify.form w' = DropNotify.form w).
Proof.
  intros w.
  destruct (notify_submit_outcomes w "a@b.com"
              (DropNotify.mkButton false "Remind me"))
    as [Hok Hfail]; [reflexivity | discriminate | reflexivity |].
  split.
  - destruct (Hok 200) as (w' & Hrun & Hform & Hmsg & Hbtn & _).
    exists w'. split; [exact Hrun |].
    split; [apply (Hform ""); reflexivity |].
    split; [apply (Hmsg "none"); reflexivity | exact Hbtn].
  - destruct (Hfail "Failed to fetch")
      as (w' & Hrun & Hbtn & Hsame & Hform & _).
    exists w'. split; [exact Hrun |]. split; [exact Hbtn |].
    split; [| exact Hform].
    intros Heq. apply Hsame in Heq. discriminate.
Defined.

(** C10: with a non-empty email typed and the button in place, whatever
    the HTTP status of the response (500 as well as 200) the run ends as on
    success: the form hidden, the success message shown, the button left
    disabled, nothing logged; and a run logs an error, which only the
    [catch] branch does, exactly when [fetch] was rejected. *)
Theorem http_error_treated_as_success
    (w : DropNotify.t) (email : string) (b : DropNotify.Button) :
  DropNotify.input w = Some email ->
  email <> "" ->
  DropNotify.button w = Some b ->
  (forall status,
     DropNotify.handleSubmit (DropNotify.Fulfilled status) w
     = DropNotify.handleSubmit (DropNotify.Fulfilled 200) w) /\
  (exists w',
     DropNotify.handleSubmit (DropNotify.Fulfilled 500) w
     = DropNotify.Done w' /\
     (forall display, DropNotify.form w = Some display ->
        DropNotify.form w' = Some "none") /\
     (forall display, DropNotify.successMessage w = Some display ->
        DropNotify.successMessage w' = Some "flex") /\
     DropNotify.button w' = Some (DropNotify.mkButton true "Submitting...") /\
     DropNotify.console_error w' = DropNotify.console_error w) /\
  (forall r w',
     DropNotify.handleSubmit r w = DropNotify.Done w' ->
     (DropNotify.console_error w' <> DropNotify.console_error w <->
      exists reason, r = DropNotify.Rejected reason) /\
     (DropNotify.button w' = Some (DropNotify.mkButton false "Notify Me") <->
      exists reason, r = DropNotify.Rejected reason)).
Proof.
  intros Hin Hne Hb. split; [| split].
  - intros status.
    now rewrite !(handleSubmit_fulfilled w email b) by assumption.
  - eexists.
    split; [apply (handleSubmit_fulfilled w email b); assumption |].
    cbn. split; [intros display -> | split; [intros display -> |]]; auto.
  - intros [status|reason] w' Hrun.
    + rewrite (handleSubmit_fulfilled w email b) in Hrun by assumption.
      injection Hrun as <-. cbn. split; split.
      * intros Hlog. now contradiction Hlog.
      * intros [reason Hr]. discriminate.
      * intros Hbtn. discriminate.
      * intros [reason Hr]. discriminate.
    + rewrite (handleSubmit_rejected w email b) in Hrun by assumption.
      injection Hrun as <-. cbn. split; split.
      * intros _. now exists reason.
      * intros _. apply snoc_neq.
      * intros _. now exists reason.
      * reflexivity.
Qed.

(** The address a@b.com submitted from a fresh form, answered by a 500. *)
Lemma http_error_treated_as_success_witness :
  let w :=
    DropNotify.mk (Some "") (Some "a@b.com")
      (Some (DropNotify.mkButton false "Notify Me")) (Some "none") [] [] in
  DropNotify.handleSubmit (DropNotify.Fulfilled 500) w
  = DropNotify.handleSubmit (DropNotify.Fulfilled 200) w /\
  exists w',
    DropNotify.handleSubmit (DropNotify.Fulfilled 500) w
    = DropNotify.Done w' /\
    DropNotify.form w' = Some "none" /\
    DropNotify.successMessage w' = Some "flex".
Proof.
  intros w.
  destruct (http_error_treated_as_success w "a@b.com"
              (DropNotify.mkButton false "Notify Me"))
    as (Hsame & (w' & Hrun & Hform & Hmsg & _) & _);
    [reflexivity | discriminate | reflexivity |].
  split; [apply Hsame |].
  exists w'. split; [exact Hrun |].
  split; [apply (Hform ""); reflexivity | apply (Hmsg "none"); reflexivity].
Defined.

(** * Further properties of the three components *)

(** ** The countdown over its whole life *)

Section CountdownLife.

Import DropCountdown Lifecycle.

Implicit Types (w : t) (clock : Z) (id : positive) (h : Host).

(** What [update] leaves alone. *)
Lemma update_frame w clock :
  let w' := update clock w in
  startDate w' = startDate w /\ endDate w' = endDate w /\
  nextHandle w' = nextHandle w /\
  (timers w' = timers w /\ intervalId w' = intervalId w \/
   w' = showEnded w).
Proof.
  destruct (update_cases w clock) as [[_ Hup] | (t & _ & _ & Hup)];
    cbv zeta; rewrite Hup.
  - destruct (showEnded_fields w)
      as (_ & _ & _ & _ & _ & _ & _ & Hs & He & Hn & _).
    auto.
  - read_fields. auto 6.
Qed.

Lemma showEnded_keeps_invariant a w :
  life_invariant a w -> life_invariant a (showEnded w).
Proof.
  intros (Hev & Hfresh & Hown).
  destruct (showEnded_fields w)
    as (Hid & Htm & _ & _ & _ & _ & _ & _ & _ & Hn & Hd).
  assert (timers (showEnded w) = ∅) as Hnone.
  { rewrite Htm. apply set_eq. intros x. rewrite elem_of_empty.
    split; [| tauto].
    destruct (intervalId w) as [id|] eqn:Hw.
    - rewrite elem_of_difference, elem_of_singleton. intros [Hin Hne].
      destruct (Hown x Hin) as [_ Hx]. congruence.
    - intros Hin. destruct (Hown x Hin) as [_ Hx]. congruence. }
  unfold life_invariant. rewrite Hnone, Hd.
  split; [exact Hev |].
  split; intros id Hin; exfalso; revert Hin; apply not_elem_of_empty.
Qed.

Lemma update_keeps_invariant a w clock :
  life_invariant a w -> life_invariant a (update clock w).
Proof.
  intros Hinv.
  destruct (update_frame w clock) as (_ & _ & Hn & [[Htm Hid] | Hended]).
  - destruct Hinv as (Hev & Hfresh & Hown).
    unfold life_invariant.
    rewrite update_dispatched, Htm, Hid, Hn. auto.
  - rewrite Hended. now apply showEnded_keeps_invariant.
Qed.

Lemma no_timer_invariant a w :
  timers w = ∅ -> dispatched w = [] -> life_invariant a w.
Proof.
  intros Hnone Hev. unfold life_invariant. rewrite Hnone.
  split; [exact Hev |].
  split; intros id Hin; exfalso; revert Hin; apply not_elem_of_empty.
Qed.

Lemma invariant_detached_no_timer w :
  life_invariant false w -> timers w = ∅.
Proof.
  intros (_ & _ & Hown). apply set_eq. intros x.
  rewrite elem_of_empty. split; [| tauto].
  intros Hin. destruct (Hown x Hin) as [Hf _]. discriminate.
Qed.

(** The second half of [connectedCallback], from a state without timer. *)
Lemma started_invariant w clock :
  timers w = ∅ -> dispatched w = [] ->
  life_invariant true (setInterval_update (update clock w)).
Proof.
  intros Hnone Hev.
  pose proof (update_keeps_invariant true w clock
                (no_timer_invariant true w Hnone Hev)) as (Hev2 & _ & _).
  assert (timers (update clock w) = ∅) as Hnone2.
  { destruct (update_frame w clock) as (_ & _ & _ & [[Htm _] | Hended]).
    - now rewrite Htm.
    - rewrite Hended. destruct (showEnded_fields w) as (_ & -> & _).
      destruct (intervalId w); rewrite Hnone; [| reflexivity].
      apply set_eq. intros x. rewrite elem_of_difference, elem_of_empty.
      tauto. }
  unfold life_invariant, setInterval_update. read_fields. rewrite Hnone2.
  split; [exact Hev2 |].
  split; intros id Hin; apply elem_of_union in Hin as [Hin | Hin];
    try (exfalso; revert Hin; apply not_elem_of_empty);
    apply elem_of_singleton in Hin; subst id; [lia | split; reflexivity].
Qed.

Lemma reachable_invariant a w :
  Lifecycle.Reachable a w -> life_invariant a w.
Proof.
  induction 1 as [| h clock w Hr IH | w Hr IH | a id clock w Hr IH].
  - now apply no_timer_invariant.
  - pose proof (invariant_detached_no_timer w IH) as Hnone.
    destruct IH as (Hev & _ & _).
    unfold connectedCallback. read_fields.
    destruct (dataset_startDate h) as [sd|];
      [| destruct (dataset_endDate h) as [ed|]];
      solve [ now apply started_invariant
            | now apply no_timer_invariant ].
  - destruct IH as (Hev & Hfresh & Hown).
    apply no_timer_invariant.
    + unfold disconnectedCallback. apply set_eq. intros x.
      rewrite elem_of_empty. split; [| tauto].
      destruct (intervalId w) as [id|] eqn:Hw.
      * read_fields. rewrite elem_of_difference, elem_of_singleton.
        intros [Hin Hne]. destruct (Hown x Hin) as [_ Hx]. congruence.
      * intros Hin. destruct (Hown x Hin) as [_ Hx]. congruence.
    + unfold disconnectedCallback. destruct (intervalId w); exact Hev.
  - unfold fire. case_decide; [now apply update_keeps_invariant | exact IH].
Qed.

End CountdownLife.

(** X1: on every state of the life of a countdown at most one timer runs,
    and then the component is attached and remembers its handle; on a
    detached component no timer runs. *)
Theorem at_most_one_timer (a : bool) (w : DropCountdown.t) :
  Lifecycle.Reachable a w ->
  (a = false -> DropCountdown.timers w = ∅) /\
  (DropCountdown.timers w = ∅ \/
   exists id, a = true /\ DropCountdown.intervalId w = Some id /\
              DropCountdown.timers w = {[id]}).
Proof.
  intros Hr. apply reachable_invariant in Hr as Hinv.
  split.
  - intros ->. now apply invariant_detached_no_timer.
  - destruct Hinv as (_ & _ & Hown).
    destruct (DropCountdown.intervalId w) as [id|] eqn:Hid.
    + destruct (decide (id ∈ DropCountdown.timers w)) as [Hin | Hout].
      * right. exists id. destruct (Hown id Hin) as [-> _].
        repeat split. apply set_eq. intros x. rewrite elem_of_singleton.
        split; [| now intros ->].
        intros Hx. destruct (Hown x Hx) as [_ Heq]. congruence.
      * left. apply set_eq. intros x. rewrite elem_of_empty.
        split; [| tauto]. intros Hx. destruct (Hown x Hx) as [_ Heq].
        congruence.
    + left. apply set_eq. intros x. rewrite elem_of_empty.
      split; [| tauto]. intros Hx. destruct (Hown x Hx) as [_ Heq].
      congruence.
Qed.

(** A countdown to 5000 attached at 0, ticked at 1000, then detached. *)
Lemma at_most_one_timer_witness :
  let h :=
    DropCountdown.mkHost (Some (mkDate (Finite 5000))) None
      (Some "") (Some "") (Some "") (Some "") in
  let w :=
    DropCountdown.disconnectedCallback
      (DropCountdown.fire 1 1000
         (DropCountdown.connectedCallback h 0 DropCountdown.constructor)) in
  DropCountdown.timers w = ∅.
Proof.
  intros h w.
  apply (at_most_one_timer false w); [| reflexivity].
  apply Lifecycle.detached, Lifecycle.timer_due, Lifecycle.attached,
    Lifecycle.created.
Defined.

(** X2: on no state of the life of a countdown, whatever the hosts it was
    attached to and the instants of its ticks, has any event been
    dispatched. *)
Theorem life_dispatches_nothing (a : bool) (w : DropCountdown.t) :
  Lifecycle.Reachable a w -> DropCountdown.dispatched w = [].
Proof. intros Hr. now apply reachable_invariant in Hr as (Hev & _). Qed.

(** A drop from 1000 to 2000, attached at 0 and ticked past both ends. *)
Lemma life_dispatches_nothing_witness :
  let h :=
    DropCountdown.mkHost (Some (mkDate (Finite 1000)))
      (Some (mkDate (Finite 2000))) (Some "") (Some "") (Some "") (Some "") in
  DropCountdown.dispatched
    (DropCountdown.fire 1 2000
       (DropCountdown.fire 1 1000
          (DropCountdown.connectedCallback h 0 DropCountdown.constructor)))
  = [].
Proof.
  intros h.
  apply (life_dispatches_nothing true).
  apply Lifecycle.timer_due, Lifecycle.timer_due, Lifecycle.attached,
    Lifecycle.created.
Defined.

(** X3: attached without any date, the component stays as it was: no timer
    is started, no slot is looked up or written and no class is added,
    although its status is ended at every instant. *)
Theorem no_dates_inert
    (h : DropCountdown.Host) (clock : Z) (w : DropCountdown.t) :
  DropCountdown.dataset_startDate h = None ->
  DropCountdown.dataset_endDate h = None ->
  let w' := DropCountdown.connectedCallback h clock w in
  DropCountdown.timers w' = DropCountdown.timers w /\
  DropCountdown.intervalId w' = DropCountdown.intervalId w /\
  (DropCountdown.daysEl w', DropCountdown.hoursEl w',
   DropCountdown.minutesEl w', DropCountdown.secondsEl w')
  = (DropCountdown.daysEl w, DropCountdown.hoursEl w,
     DropCountdown.minutesEl w, DropCountdown.secondsEl w) /\
  DropCountdown.classList w' = DropCountdown.classList w /\
  (forall clock', DropCountdown.getStatus w' (Date_now clock') = ended) /\
  (DropCountdown.timers w = ∅ ->
   forall id clocks, DropCountdown.ticks id clocks w' = w').
Proof.
  intros Hs He. unfold DropCountdown.connectedCallback. read_fields.
  rewrite Hs, He. read_fields.
  split; [reflexivity |]. split; [reflexivity |]. split; [reflexivity |].
  split; [reflexivity |]. split; [reflexivity |].
  intros Hnone id clocks. now apply ticks_stopped.
Qed.

(** A host with four slots and no data attribute. *)
Lemma no_dates_inert_witness :
  let h :=
    DropCountdown.mkHost None None (Some "07") (Some "08") (Some "09")
      (Some "10") in
  let w' := DropCountdown.connectedCallback h 0 DropCountdown.constructor in
  DropCountdown.intervalId w' = None /\
  DropCountdown.timers w' = ∅.
Proof.
  intros h w'.
  destruct (no_dates_inert h 0 DropCountdown.constructor)
    as (Htm & Hid & _); [reflexivity | reflexivity |].
  split; [exact Hid | exact Htm].
Defined.

Section CountdownRendering.

Import DropCountdown.

Implicit Types (w : t) (clock : Z) (id : positive) (h : Host).

Lemma setValue_shows (el : option string) (num : number) :
  setValue el num = (fun _ => padZero num) <$> el.
Proof. destruct el; cbn; [now rewrite animateValue_new | reflexivity]. Qed.

(** Below one hundred, [padZero] prints exactly two characters. *)
Lemma padZero_two_chars (n : Z) :
  0 <= n < 100 -> String.length (padZero (Finite n)) = 2%nat.
Proof.
  intros Hn.
  assert (forallb
            (fun k => Nat.eqb (String.length (padZero (Finite (Z.of_nat k)))) 2)
            (List.seq 0 100) = true) as Hall by (vm_compute; reflexivity).
  rewrite forallb_forall in Hall.
  specialize (Hall (Z.to_nat n)).
  rewrite Z2Nat.id in Hall by lia.
  apply Nat.eqb_eq, Hall, in_seq. lia.
Qed.

Lemma padZero_at_least_two (n : Z) :
  0 <= n -> (2 <= String.length (padZero (Finite n)))%nat.
Proof.
  intros Hn. destruct (Z.lt_ge_cases n 10) as [Hlt | Hge].
  - destruct (padZero_padded n) as [_ ->]; [lia | reflexivity].
  - rewrite padZero_unpadded by assumption. now apply toString_two_digits.
Qed.

Lemma getStatus_same_dates w w' (now : Date) :
  startDate w' = startDate w -> endDate w' = endDate w ->
  getStatus w' now = getStatus w now.
Proof. intros Hs He. unfold getStatus. now rewrite Hs, He. Qed.

Lemma setValues_twice (d h m s : number) w :
  setValues d h m s (setValues d h m s w) = setValues d h m s w.
Proof.
  apply state_ext; read_fields; try reflexivity;
    rewrite !setValue_shows; now destruct (_ w).
Qed.

End CountdownRendering.

(** X4: a tick that finds the status upcoming or live writes, into each
    slot that exists, the digits of the time left to the start (when
    upcoming) or to the end (when live), which lies strictly ahead; hours,
    minutes and seconds take exactly two characters, days at least two; the
    timer, its handle and the classes are left as they were. *)
Theorem update_renders_time_left (w : DropCountdown.t) (clock : Z) :
  DropCountdown.getStatus w (Date_now clock) <> ended ->
  exists t D H M S ms,
    (DropCountdown.getStatus w (Date_now clock) = upcoming /\
     DropCountdown.startDate w = Some (mkDate (Finite t)) \/
     DropCountdown.getStatus w (Date_now clock) = live /\
     DropCountdown.endDate w = Some (mkDate (Finite t))) /\
    clock < t /\
    t - clock = (((D * 24 + H) * 60 + M) * 60 + S) * 1000 + ms /\
    0 <= D /\ 0 <= H < 24 /\ 0 <= M < 60 /\ 0 <= S < 60 /\ 0 <= ms < 1000 /\
    let w' := DropCountdown.update clock w in
    DropCountdown.daysEl w'
    = ((fun _ => DropCountdown.padZero (Finite D)) <$> DropCountdown.daysEl w) /\
    DropCountdown.hoursEl w'
    = ((fun _ => DropCountdown.padZero (Finite H)) <$> DropCountdown.hoursEl w) /\
    DropCountdown.minutesEl w'
    = ((fun _ => DropCountdown.padZero (Finite M))
         <$> DropCountdown.minutesEl w) /\
    DropCountdown.secondsEl w'
    = ((fun _ => DropCountdown.padZero (Finite S))
         <$> DropCountdown.secondsEl w) /\
    (2 <= String.length (DropCountdown.padZero (Finite D)))%nat /\
    String.length (DropCountdown.padZero (Finite H)) = 2%nat /\
    String.length (DropCountdown.padZero (Finite M)) = 2%nat /\
    String.length (DropCountdown.padZero (Finite S)) = 2%nat /\
    DropCountdown.intervalId w' = DropCountdown.intervalId w /\
    DropCountdown.timers w' = DropCountdown.timers w /\
    DropCountdown.classList w' = DropCountdown.classList w.
Proof.
  intros Hst.
  destruct (update_cases w clock) as [[Hended _] | (t & Hwhich & Hlt & Hup)];
    [contradiction |].
  destruct (quotients_floor (t - clock))
    as (D & H & M & S & ms & HD & HH & HM & HS & Hsum & Hb); [lia |].
  exists t, D, H, M, S, ms.
  split; [exact Hwhich |]. split; [exact Hlt |]. split; [exact Hsum |].
  destruct Hb as (HbD & HbH & HbM & HbS & Hbms).
  repeat (split; [assumption |]).
  cbv zeta. rewrite Hup, HD, HH, HM, HS. read_fields.
  rewrite !setValue_shows.
  repeat (split; [reflexivity |]).
  split; [now apply padZero_at_least_two |].
  split; [apply padZero_two_chars; lia |].
  split; [apply padZero_two_chars; lia |].
  split; [apply padZero_two_chars; lia |].
  repeat split.
Qed.

(** A drop starting at 90,061,001, looked at 0. *)
Lemma update_renders_time_left_witness :
  let w :=
    DropCountdown.mk (Some (mkDate (Finite 90061001))) None
      (Some 1%positive) (Some "") (Some "") (Some "") (Some "") []
      {[1%positive]} 2%positive [] in
  exists t D H M S ms,
    DropCountdown.startDate w = Some (mkDate (Finite t)) /\
    t - 0 = (((D * 24 + H) * 60 + M) * 60 + S) * 1000 + ms /\
    DropCountdown.secondsEl (DropCountdown.update 0 w)
    = Some (DropCountdown.padZero (Finite S)).
Proof.
  intros w.
  destruct (update_renders_time_left w 0)
    as (t & D & H & M & S & ms & Hwhich & _ & Hsum & _ & _ & _ & _ & _ &
        _ & _ & _ & Hsec & _); [discriminate |].
  exists t, D, H, M, S, ms.
  destruct Hwhich as [[_ Hs] | [Hl _]]; [| discriminate].
  split; [exact Hs |]. split; [exact Hsum | exact Hsec].
Defined.

(** X5: a second tick at the same instant changes nothing. *)
Theorem update_twice_same_instant (w : DropCountdown.t) (clock : Z) :
  DropCountdown.update clock (DropCountdown.update clock w)
  = DropCountdown.update clock w.
Proof.
  pose proof (update_frame w clock) as (Hs & He & _).
  pose proof (getStatus_same_dates w (DropCountdown.update clock w)
                (Date_now clock) Hs He) as Hsame.
  destruct (update_cases w clock) as [[Hst Hup] | (t & Hwhich & Hlt & Hup)];
    destruct (update_cases (DropCountdown.update clock w) clock)
      as [[Hst' Hup'] | (t' & Hwhich' & Hlt' & Hup')].
  - rewrite Hup', Hup. apply showEnded_idem.
  - rewrite Hsame, Hst in Hwhich'.
    destruct Hwhich' as [[Hx _] | [Hx _]]; discriminate.
  - rewrite Hsame in Hst'.
    destruct Hwhich as [[Hx _] | [Hx _]]; congruence.
  - assert (t' = t) as ->.
    { rewrite Hsame, Hs, He in Hwhich'.
      destruct Hwhich as [[Hx Hd] | [Hx Hd]],
               Hwhich' as [[Hx' Hd'] | [Hx' Hd']]; congruence. }
    rewrite Hup', Hup. apply setValues_twice.
Qed.

(** X6: when the end is not after the start, the drop is never live: it is
    upcoming before the start and ended from the start on. *)
Theorem inverted_window_never_live
    (w : DropCountdown.t) (s e clock : Z) :
  DropCountdown.startDate w = Some (mkDate (Finite s)) ->
  DropCountdown.endDate w = Some (mkDate (Finite e)) ->
  e <= s ->
  DropCountdown.getStatus w (Date_now clock) <> live /\
  (clock < s -> DropCountdown.getStatus w (Date_now clock) = upcoming) /\
  (s <= clock -> DropCountdown.getStatus w (Date_now clock) = ended).
Proof.
  intros Hs He Hle. unfold DropCountdown.getStatus.
  rewrite Hs, He, !set_and_after_valid.
  destruct (Z.ltb_spec clock s), (Z.ltb_spec clock e);
    repeat split; intros; try discriminate; try reflexivity; lia.
Qed.

(** A drop said to start at 2000 and to end at 1000, looked at 1500. *)
Lemma inverted_window_never_live_witness :
  DropCountdown.getStatus
    (DropCountdown.mk (Some (mkDate (Finite 2000)))
       (Some (mkDate (Finite 1000))) None None None None None [] ∅
       1%positive [])
    (Date_now 1500) = upcoming.
Proof.
  apply (inverted_window_never_live _ 2000 1000 1500);
    [reflexivity | reflexivity | lia | lia].
Defined.

(** X7: a host whose dates are present but invalid is not inert: attached,
    it is ended at every instant, shows zero in every slot at once and
    starts its timer, which the first tick stops. *)
Theorem invalid_dates_not_inert (h : DropCountdown.Host) (clock : Z) :
  Spec.instant (DropCountdown.dataset_startDate h) = None ->
  Spec.instant (DropCountdown.dataset_endDate h) = None ->
  (is_Some (DropCountdown.dataset_startDate h) \/
   is_Some (DropCountdown.dataset_endDate h)) ->
  let w0 := DropCountdown.connectedCallback h clock DropCountdown.constructor in
  (forall clock', DropCountdown.getStatus w0 (Date_now clock') = ended) /\
  (DropCountdown.daysEl w0, DropCountdown.hoursEl w0,
   DropCountdown.minutesEl w0, DropCountdown.secondsEl w0)
  = (DropCountdown.zeroed (DropCountdown.countdown_days h),
     DropCountdown.zeroed (DropCountdown.countdown_hours h),
     DropCountdown.zeroed (DropCountdown.countdown_minutes h),
     DropCountdown.zeroed (DropCountdown.countdown_seconds h)) /\
  DropCountdown.intervalId w0 = Some 1%positive /\
  DropCountdown.timers w0 = {[1%positive]} /\
  forall clock', DropCountdown.timers (DropCountdown.fire 1 clock' w0) = ∅.
Proof.
  intros Hs He Hset w0.
  assert (forall c (w : DropCountdown.t),
            DropCountdown.startDate w = DropCountdown.dataset_startDate h ->
            DropCountdown.endDate w = DropCountdown.dataset_endDate h ->
            DropCountdown.getStatus w (Date_now c) = ended) as Hended.
  { intros c w Hws Hwe. rewrite getStatus_statusOf, Hws, Hwe, Hs, He.
    reflexivity. }
  assert (DropCountdown.startDate w0 = DropCountdown.dataset_startDate h /\
          DropCountdown.endDate w0 = DropCountdown.dataset_endDate h)
    as [Hws Hwe].
  { subst w0. unfold DropCountdown.connectedCallback. read_fields.
    destruct (DropCountdown.dataset_startDate h),
             (DropCountdown.dataset_endDate h); read_fields;
      try (split; reflexivity);
      match goal with
      | |- context [DropCountdown.update clock ?w2] =>
          destruct (update_frame w2 clock) as (Hx & Hy & _);
          rewrite Hx, Hy; split; reflexivity
      end. }
  destruct (connected_ended h clock Hset (Hended clock w0 Hws Hwe))
    as (_ & _ & H3 & H4 & H5 & H6 & _ & Hid & Htm).
  fold w0 in H3, H4, H5, H6, Hid, Htm.
  split; [intros clock'; now apply Hended |].
  split; [now rewrite H3, H4, H5, H6 |].
  split; [exact Hid |]. split; [exact Htm |].
  intros clock'.
  assert (DropCountdown.fire 1 clock' w0 = DropCountdown.update clock' w0)
    as ->.
  { unfold DropCountdown.fire. case_decide as Hin; [reflexivity |].
    exfalso. apply Hin. rewrite Htm. now apply elem_of_singleton. }
  destruct (update_ended w0 clock' 1%positive Hid (Hended clock' w0 Hws Hwe))
    as (_ & -> & _).
  rewrite Htm. apply set_eq. intros x.
  rewrite elem_of_difference, elem_of_empty. tauto.
Qed.

(** A host whose start date does not parse. *)
Lemma invalid_dates_not_inert_witness :
  let h :=
    DropCountdown.mkHost (Some (mkDate NaN)) None (Some "") (Some "")
      (Some "") (Some "") in
  let w0 := DropCountdown.connectedCallback h 0 DropCountdown.constructor in
  DropCountdown.intervalId w0 = Some 1%positive /\
  DropCountdown.secondsEl w0 = Some "00".
Proof.
  intros h w0.
  destruct (invalid_dates_not_inert h 0) as (_ & Hslots & Hid & _);
    [reflexivity | reflexivity | left; eexists; reflexivity |].
  split; [exact Hid |].
  exact (f_equal snd Hslots).
Defined.

(** X8: [padZero] never cuts: whatever the number, its result is the
    printed number behind a filler of zeros, and it is two characters long
    or as long as the printed number if that is longer. *)
Theorem padZero_keeps_number (num : number) :
  exists filler,
    DropCountdown.padZero num = (filler ++ toString num)%string /\
    (filler = "" \/ filler = "0" \/ filler = "00") /\
    String.length (DropCountdown.padZero num)
    = Nat.max 2 (String.length (toString num)).
Proof.
  unfold DropCountdown.padZero.
  destruct (toString num) as [|c1 [|c2 rest]].
  - exists "00". cbn. auto.
  - exists "0". cbn. auto.
  - exists "". cbn. auto.
Qed.

(** ** The status display, further *)

Section StatusDisplay.

Import DropStatus.

Implicit Types (l : list string) (token x : string).

Lemma In_tokens_add token x l :
  In x (tokens_add token l) <-> x = token \/ In x l.
Proof.
  unfold tokens_add.
  destruct (existsb (String.eqb token) l) eqn:Hin.
  - split; [auto |]. intros [-> | H]; [| exact H].
    apply existsb_exists in Hin as (y & Hy & Heq).
    apply String.eqb_eq in Heq. now subst y.
  - rewrite in_app_iff. cbn. intuition congruence.
Qed.

Lemma In_tokens_remove token x l :
  In x (tokens_remove token l) <-> x <> token /\ In x l.
Proof.
  unfold tokens_remove. rewrite filter_In, negb_true_iff.
  split.
  - intros [Hin Hne]. split; [| exact Hin].
    intros ->. now rewrite String.eqb_refl in Hne.
  - intros [Hne Hin]. split; [exact Hin |].
    apply String.eqb_neq. congruence.
Qed.

Lemma tokens_add_idem token l :
  tokens_add token (tokens_add token l) = tokens_add token l.
Proof.
  unfold tokens_add.
  destruct (existsb (String.eqb token) l) eqn:Hin.
  - now rewrite Hin.
  - now rewrite existsb_added.
Qed.

Lemma tokens_remove_idem token l :
  tokens_remove token (tokens_remove token l) = tokens_remove token l.
Proof.
  unfold tokens_remove. induction l as [|y l IH]; [reflexivity |].
  cbn. destruct (negb (String.eqb token y)) eqn:Hy; cbn.
  - rewrite Hy. now f_equal.
  - exact IH.
Qed.

End StatusDisplay.

(** X9: after [updateStatus] the button carries the class
    [drop-add-button--disabled] exactly when it is disabled, whatever
    classes it had before, and every other class it had is kept and none
    is added. *)
Theorem button_class_follows_disabled
    (clock : Z) (w : DropStatus.t) (b : DropStatus.AddButton) :
  DropStatus.addButton w = Some b ->
  exists b',
    DropStatus.addButton (DropStatus.updateStatus clock w) = Some b' /\
    (In "drop-add-button--disabled" (DropStatus.classList b') <->
     DropStatus.disabled b' = true) /\
    forall x, x <> "drop-add-button--disabled" ->
      (In x (DropStatus.classList b') <-> In x (DropStatus.classList b)).
Proof.
  intros Hb. unfold DropStatus.updateStatus.
  cbn [DropStatus.addButton]. rewrite Hb. eexists.
  split; [reflexivity |].
  destruct (DropStatus.status_at w (Date_now clock));
    cbn [DropStatus.update_button DropStatus.classList DropStatus.disabled];
    rewrite ?In_tokens_add, ?In_tokens_remove;
    (split; [| intros x Hx; rewrite ?In_tokens_add, ?In_tokens_remove]);
    intuition congruence.
Qed.

(** A live drop whose button was left disabled, with a class of its
    own. *)
Lemma button_class_follows_disabled_witness :
  let b :=
    DropStatus.mkAddButton true ["btn"; "drop-add-button--disabled"]
      "Coming Soon" in
  let w :=
    DropStatus.mk None (Some (mkDate (Finite 1000))) None None (Some b) None in
  exists b',
    DropStatus.addButton (DropStatus.updateStatus 0 w) = Some b' /\
    (In "drop-add-button--disabled" (DropStatus.classList b') <->
     DropStatus.disabled b' = true) /\
    (In "btn" (DropStatus.classList b') <-> In "btn" (DropStatus.classList b)).
Proof.
  intros b w.
  destruct (button_class_follows_disabled 0 w b) as (b' & Hb' & Hcls & Hrest);
    [reflexivity |].
  exists b'. split; [exact Hb' |]. split; [exact Hcls |].
  apply Hrest. discriminate.
Defined.

(** X10: [updateStatus] run again at the same instant changes nothing. *)
Theorem updateStatus_twice_same_instant (clock : Z) (w : DropStatus.t) :
  DropStatus.updateStatus clock (DropStatus.updateStatus clock w)
  = DropStatus.updateStatus clock w.
Proof.
  unfold DropStatus.updateStatus at 1 3.
  assert (DropStatus.status_at (DropStatus.updateStatus clock w)
            (Date_now clock)
          = DropStatus.status_at w (Date_now clock)) as -> by reflexivity.
  unfold DropStatus.updateStatus.
  cbn [DropStatus.startDate DropStatus.endDate DropStatus.data_status
       DropStatus.statusBadge DropStatus.addButton DropStatus.notifySection].
  set (status := DropStatus.status_at w (Date_now clock)).
  f_equal.
  - destruct (DropStatus.statusBadge w) as [[cn [txt|]]|]; reflexivity.
  - destruct (DropStatus.addButton w) as [[dis cls txt]|]; [| reflexivity].
    cbn [fmap option_fmap option_map]. f_equal.
    destruct status; unfold DropStatus.update_button;
      cbn [DropStatus.classList]; f_equal;
      auto using tokens_add_idem, tokens_remove_idem.
  - destruct (DropStatus.notifySection w); reflexivity.
Qed.

(** ** The notify form, further *)

(** X11: with no input element, or with nothing typed, [handleSubmit] does
    nothing at all: no request is sent, no element is touched, nothing is
    logged, however [fetch] would have settled. *)
Theorem submit_without_email (w : DropNotify.t) (r : DropNotify.Settled) :
  DropNotify.input w = None \/ DropNotify.input w = Some "" ->
  DropNotify.handleSubmit r w = DropNotify.Done w.
Proof.
  intros [Hin | Hin]; unfold DropNotify.handleSubmit,
    DropNotify.handleSubmit_begin; rewrite Hin; reflexivity.
Qed.

(** A form whose input is empty. *)
Lemma submit_without_email_witness :
  let w :=
    DropNotify.mk (Some "") (Some "")
      (Some (DropNotify.mkButton false "Notify Me")) (Some "none") [] [] in
  DropNotify.handleSubmit (DropNotify.Fulfilled 200) w = DropNotify.Done w.
Proof.
  intros w. apply submit_without_email. right. reflexivity.
Defined.

(** X12: with an email typed but no submit button in the markup,
    [handleSubmit] throws before anything is sent: no request, no change,
    however [fetch] would have settled. *)
Theorem submit_without_button
    (w : DropNotify.t) (email : string) (r : DropNotify.Settled) :
  DropNotify.input w = Some email ->
  email <> "" ->
  DropNotify.button w = None ->
  DropNotify.handleSubmit r w = DropNotify.Threw "TypeError" w.
Proof.
  intros Hin Hne Hb. unfold DropNotify.handleSubmit,
    DropNotify.handleSubmit_begin.
  rewrite Hin, (nonempty_length _ Hne), Hb. reflexivity.
Qed.

(** A form without button. *)
Lemma submit_without_button_witness :
  let w := DropNotify.mk (Some "") (Some "a@b.com") None None [] [] in
  DropNotify.handleSubmit (DropNotify.Fulfilled 200) w
  = DropNotify.Threw "TypeError" w.
Proof.
  intros w. apply (submit_without_button w "a@b.com");
    [reflexivity | discriminate | reflexivity].
Defined.

(** X13: a submission that failed can be made again: the second run, when
    [fetch] is fulfilled, ends as a first successful one would (form
    hidden, success message shown, button disabled), with the one error
    line of the first run in the log and two identical POST requests to
    [/contact] sent in all, each with the email and the tag
    [drop-notify]. *)
Theorem retry_after_failure
    (w : DropNotify.t) (email : string) (b : DropNotify.Button)
    (reason : string) (status : Z) :
  DropNotify.input w = Some email ->
  email <> "" ->
  DropNotify.button w = Some b ->
  exists w1 w2,
    DropNotify.handleSubmit (DropNotify.Rejected reason) w
    = DropNotify.Done w1 /\
    DropNotify.handleSubmit (DropNotify.Fulfilled status) w1
    = DropNotify.Done w2 /\
    (forall display, DropNotify.form w = Some display ->
       DropNotify.form w2 = Some "none") /\
    (forall display, DropNotify.successMessage w = Some display ->
       DropNotify.successMessage w2 = Some "flex") /\
    DropNotify.button w2 = Some (DropNotify.mkButton true "Submitting...") /\
    DropNotify.fetched w2
    = (DropNotify.fetched w ++
       [DropNotify.mkRequest "/contact" "POST"
          [("contact[email]", email); ("contact[tags]", "drop-notify")];
        DropNotify.mkRequest "/contact" "POST"
          [("contact[email]", email); ("contact[tags]", "drop-notify")]])%list /\
    DropNotify.console_error w2
    = (DropNotify.console_error w ++
       [("Error submitting notify form: " ++ reason)%string])%list.
Proof.
  intros Hin Hne Hb. eexists. eexists.
  split; [apply (handleSubmit_rejected w email b); assumption |].
  split; [apply (handleSubmit_fulfilled _ email
                   (DropNotify.mkButton false "Notify Me"));
          [reflexivity | assumption | reflexivity] |].
  cbn [DropNotify.form DropNotify.successMessage DropNotify.button
       DropNotify.fetched DropNotify.console_error].
  split; [intros display ->; reflexivity |].
  split; [intros display ->; reflexivity |].
  split; [reflexivity |].
  split; [| reflexivity].
  now rewrite <- app_assoc.
Qed.

(** The address a@b.com, refused once and then accepted. *)
Lemma retry_after_failure_witness :
  let w :=
    DropNotify.mk (Some "") (Some "a@b.com")
      (Some (DropNotify.mkButton false "Notify Me")) (Some "none") [] [] in
  exists w1 w2,
    DropNotify.handleSubmit (DropNotify.Rejected "Failed to fetch") w
    = DropNotify.Done w1 /\
    DropNotify.handleSubmit (DropNotify.Fulfilled 200) w1
    = DropNotify.Done w2 /\
    DropNotify.form w2 = Some "none" /\
    length (DropNotify.fetched w2) = 2%nat.
Proof.
  intros w.
  destruct (retry_after_failure w "a@b.com"
              (DropNotify.mkButton false "Notify Me") "Failed to fetch" 200)
    as (w1 & w2 & H1 & H2 & Hform & _ & _ & Hsent & _);
    [reflexivity | discriminate | reflexivity |].
  exists w1, w2. split; [exact H1 |]. split; [exact H2 |].
  split; [apply (Hform ""); reflexivity | now rewrite Hsent].
Defined.

(** ** The preloader *)

Section PreloaderFacts.

Import Preloader.

Implicit Types (st : t) (clock : Z) (q : list (Z * Callback)).

Local Arguments String.eqb : simpl never.

Lemma removed_absent (token : string) (l : list string) :
  existsb (String.eqb token) (DropStatus.tokens_remove token l) = false.
Proof.
  destruct (existsb (String.eqb token) (DropStatus.tokens_remove token l))
    eqn:Hin; [| reflexivity].
  apply existsb_exists in Hin as (x & Hx & Heq).
  apply String.eqb_eq in Heq. subst x.
  apply In_tokens_remove in Hx as [Hne _]. congruence.
Qed.

Lemma added_present (token : string) (l : list string) :
  existsb (String.eqb token) (DropStatus.tokens_add token l) = true.
Proof.
  apply existsb_exists. exists token.
  split; [apply In_tokens_add; now left | apply String.eqb_refl].
Qed.

Lemma pending_work_enqueue (due : Z) (cb : Callback) q :
  pending_work (enqueue due cb q) = (weight cb + pending_work q)%nat.
Proof.
  induction q as [|[d c] rest IH]; cbn; [lia |].
  destruct (d <=? due); cbn; lia.
Qed.

Lemma pending_work_bound q : (pending_work q <= 2 * length q)%nat.
Proof.
  induction q as [|[d c] rest IH]; cbn; [lia |]. destruct c; cbn; lia.
Qed.

Lemma enqueue_not_nil (due : Z) (cb : Callback) q : enqueue due cb q <> [].
Proof. destruct q as [|[d c] rest]; cbn; [| destruct (d <=? due)]; discriminate. Qed.

Lemma drain_empty (n : nat) st : timeouts st = [] -> drain n st = st.
Proof. intros Hq. destruct n; cbn; [| rewrite Hq]; reflexivity. Qed.

(** One timer run, with the element in place. *)
Lemma run_next_cases st classes due cb rest :
  preloaderEl st = Some classes ->
  timeouts st = (due, cb) :: rest ->
  (cb = hide_now /\
   run_next st
   = mk (Some (DropStatus.tokens_add "hidden" classes)) (showTime st) ""
        rest (console_log st)) \/
  (cb = call_hidePreloader /\
   run_next st
   = mk (Some classes) (showTime st) (body_overflow st)
        (enqueue (Z.max due (showTime st + 300) + 100) hide_now rest)
        (console_log st)).
Proof.
  intros Hel Hq. unfold run_next. rewrite Hq.
  destruct cb; [left | right]; (split; [reflexivity |]).
  - unfold run_callback, hide_callback. cbn. now rewrite Hel.
  - unfold run_callback, hidePreloader, setTimeout. cbn. rewrite Hel.
    unfold minLoadTime, fadeDelay. do 2 f_equal. lia.
Qed.

Lemma drain_hides (n : nat) : forall st classes,
  preloaderEl st = Some classes ->
  (pending_work (timeouts st) <= n)%nat ->
  timeouts (drain n st) = [] /\
  (timeouts st <> [] ->
   visible (drain n st) = false /\ body_overflow (drain n st) = "").
Proof.
  induction n as [|n IH]; intros st classes Hel Hwork.
  - destruct (timeouts st) as [|[d [|]] rest] eqn:Hq; cbn in Hwork; try lia.
    cbn. split; [exact Hq | congruence].
  - cbn. destruct (timeouts st) as [|[due cb] rest] eqn:Hq.
    + split; [exact Hq | congruence].
    + destruct (run_next_cases st classes due cb rest Hel Hq)
        as [[-> Hrun] | [-> Hrun]]; rewrite Hrun.
      * cbn in Hwork.
        destruct (IH (mk (Some (DropStatus.tokens_add "hidden" classes))
                         (showTime st) "" rest (console_log st))
                     (DropStatus.tokens_add "hidden" classes))
          as [Hdone Hhid]; [reflexivity | cbn; lia |].
        split; [exact Hdone |]. intros _.
        destruct rest as [|p rest'].
        -- rewrite drain_empty by reflexivity.
           unfold visible. cbn. now rewrite added_present.
        -- apply Hhid. discriminate.
      * cbn in Hwork.
        destruct (IH (mk (Some classes) (showTime st) (body_overflow st)
                         (enqueue (Z.max due (showTime st + 300) + 100)
                                  hide_now rest)
                         (console_log st)) classes)
          as [Hdone Hhid];
          [reflexivity | cbn; rewrite pending_work_enqueue; cbn; lia |].
        split; [exact Hdone |]. intros _.
        apply Hhid. apply enqueue_not_nil.
Qed.

End PreloaderFacts.

(** X14: with the element in place, [hidePreloader] hides nothing itself;
    it queues the hiding for 100 ms after the later of now and 300 ms past
    the last showing, so a preloader shown at [t0] and asked to hide at
    [t1] stays on display, the page locked, and is due to hide no sooner
    than 400 ms after [t0] and 100 ms after [t1]. *)
Theorem hide_waits_minimum
    (st : Preloader.t) (classes : list string) (t0 t1 : Z) :
  Preloader.preloaderEl st = Some classes ->
  let st' := Preloader.hidePreloader t1 (Preloader.showPreloader t0 st) in
  let due := Z.max t1 (t0 + 300) + 100 in
  Preloader.timeouts st'
  = Preloader.enqueue due Preloader.hide_now (Preloader.timeouts st) /\
  t0 + 400 <= due /\ t1 + 100 <= due /\
  Preloader.visible st' = true /\
  Preloader.scroll_locked st' = true.
Proof.
  intros Hel st' due. subst st' due.
  unfold Preloader.showPreloader. rewrite Hel.
  unfold Preloader.hidePreloader, Preloader.setTimeout, Preloader.visible,
    Preloader.scroll_locked, Preloader.minLoadTime, Preloader.fadeDelay.
  cbn [Preloader.preloaderEl Preloader.showTime Preloader.timeouts
       Preloader.body_overflow].
  rewrite removed_absent.
  split; [f_equal; lia |]. repeat split; lia.
Qed.

(** A hidden preloader shown at 1000 and asked to hide at 1100. *)
Lemma hide_waits_minimum_witness :
  let st := Preloader.mk (Some ["hidden"]) 0 "" [] [] in
  Preloader.timeouts
    (Preloader.hidePreloader 1100 (Preloader.showPreloader 1000 st))
  = [(1400, Preloader.hide_now)].
Proof.
  intros st.
  destruct (hide_waits_minimum st ["hidden"] 1000 1100) as [Hq _];
    [reflexivity |].
  exact Hq.
Defined.

(** X15: with the element in place and at least one timer pending, once
    the pending timers have all run (each at the instant it is due, and
    nothing else happening) none is left, the preloader is hidden and the
    overflow of the body is back to the empty string. *)
Theorem pending_timers_end_hidden
    (st : Preloader.t) (classes : list string) :
  Preloader.preloaderEl st = Some classes ->
  Preloader.timeouts st <> [] ->
  let st' := Preloader.drain (2 * length (Preloader.timeouts st)) st in
  Preloader.timeouts st' = [] /\
  Preloader.visible st' = false /\
  Preloader.body_overflow st' = "".
Proof.
  intros Hel Hq st'.
  destruct (drain_hides (2 * length (Preloader.timeouts st)) st classes Hel)
    as [Hdone Hhid]; [apply pending_work_bound |].
  split; [exact Hdone | now apply Hhid].
Qed.

(** A preloader on display with its fallback timer pending. *)
Lemma pending_timers_end_hidden_witness :
  let st :=
    Preloader.mk (Some []) 1000 "hidden"
      [(9000, Preloader.call_hidePreloader)] [] in
  Preloader.visible (Preloader.drain 2 st) = false.
Proof.
  intros st.
  destruct (pending_timers_end_hidden st []) as (_ & Hhid & _);
    [reflexivity | discriminate |].
  exact Hhid.
Defined.

(** X16: the click listener of a submit button, or of one that carries
    [data-preloader], run at [t0] with the element in place and no timer
    pending:
    the preloader is on display and the page locked, with only the
    fallback pending, due at [t0 + 8000]; when that runs the preloader is
    still on display and the hiding is due at [t0 + 8100]; when that runs
    the preloader is hidden, the overflow restored, and no timer is
    left. *)
Theorem click_hidden_by_fallback
    (st : Preloader.t) (classes : list string) (btn : Preloader.Element)
    (t0 : Z) :
  Preloader.preloaderEl st = Some classes ->
  Preloader.timeouts st = [] ->
  Preloader.type btn = "submit" \/ Preloader.has_data_preloader btn = true ->
  let st1 := Preloader.button_click btn t0 st in
  let st2 := Preloader.run_next st1 in
  let st3 := Preloader.run_next st2 in
  (Preloader.visible st1 = true /\ Preloader.scroll_locked st1 = true /\
   Preloader.timeouts st1 = [(t0 + 8000, Preloader.call_hidePreloader)]) /\
  (Preloader.visible st2 = true /\ Preloader.scroll_locked st2 = true /\
   Preloader.timeouts st2 = [(t0 + 8100, Preloader.hide_now)]) /\
  (Preloader.visible st3 = false /\ Preloader.body_overflow st3 = "" /\
   Preloader.timeouts st3 = []).
Proof.
  intros Hel Hq Hbtn st1 st2 st3.
  assert (st1 = Preloader.mk
                  (Some (DropStatus.tokens_remove "hidden" classes)) t0
                  "hidden" [(t0 + 8000, Preloader.call_hidePreloader)]
                  (Preloader.console_log st)) as H1.
  { subst st1. unfold Preloader.button_click.
    assert (String.eqb (Preloader.type btn) "submit"
            || Preloader.has_data_preloader btn = true) as ->.
    { destruct Hbtn as [-> | ->]; [reflexivity | apply orb_true_r]. }
    unfold Preloader.showPreloader. rewrite Hel.
    unfold Preloader.setTimeout, Preloader.maxLoadTime.
    cbn [Preloader.preloaderEl Preloader.showTime Preloader.timeouts
         Preloader.body_overflow Preloader.console_log].
    now rewrite Hq. }
  assert (st2 = Preloader.mk
                  (Some (DropStatus.tokens_remove "hidden" classes)) t0
                  "hidden" [(t0 + 8100, Preloader.hide_now)]
                  (Preloader.console_log st)) as H2.
  { subst st2. rewrite H1.
    destruct (run_next_cases
                (Preloader.mk
                   (Some (DropStatus.tokens_remove "hidden" classes)) t0
                   "hidden" [(t0 + 8000, Preloader.call_hidePreloader)]
                   (Preloader.console_log st))
                (DropStatus.tokens_remove "hidden" classes) (t0 + 8000)
                Preloader.call_hidePreloader [] eq_refl eq_refl)
      as [[Hcb _] | [_ ->]]; [discriminate |].
    cbn [Preloader.showTime Preloader.body_overflow Preloader.console_log
         Preloader.enqueue].
    do 3 f_equal. lia. }
  assert (st3 = Preloader.mk
                  (Some (DropStatus.tokens_add "hidden"
                           (DropStatus.tokens_remove "hidden" classes))) t0
                  "" [] (Preloader.console_log st)) as H3.
  { subst st3. rewrite H2.
    destruct (run_next_cases
                (Preloader.mk
                   (Some (DropStatus.tokens_remove "hidden" classes)) t0
                   "hidden" [(t0 + 8100, Preloader.hide_now)]
                   (Preloader.console_log st))
                (DropStatus.tokens_remove "hidden" classes) (t0 + 8100)
                Preloader.hide_now [] eq_refl eq_refl)
      as [[_ ->] | [Hcb _]]; [reflexivity | discriminate]. }
  rewrite H1, H2, H3. unfold Preloader.visible, Preloader.scroll_locked.
  cbn [Preloader.preloaderEl Preloader.body_overflow Preloader.timeouts].
  rewrite removed_absent, added_present. repeat split.
Qed.

(** A submit button clicked at 5000 on an idle page. *)
Lemma click_hidden_by_fallback_witness :
  let st := Preloader.mk (Some ["hidden"]) 0 "" [] [] in
  let btn := Preloader.mkElement "submit" false None "" in
  Preloader.timeouts
    (Preloader.run_next (Preloader.button_click btn 5000 st))
  = [(13100, Preloader.hide_now)].
Proof.
  intros st btn.
  destruct (click_hidden_by_fallback st ["hidden"] btn 5000)
    as (_ & (_ & _ & Hq) & _); [reflexivity | reflexivity | now left |].
  exact Hq.
Defined.

Section PreloaderInvariant.

Import Preloader.

Implicit Types (st : t) (clock : Z).

Local Arguments String.eqb : simpl never.

Lemma showPreloader_in_step st clock :
  is_Some (preloaderEl st) -> in_step (showPreloader clock st).
Proof.
  intros [classes Hel]. unfold showPreloader, in_step, visible, scroll_locked.
  rewrite Hel. cbn [preloaderEl body_overflow]. rewrite removed_absent.
  split; [eexists |]; reflexivity.
Qed.

Lemma hide_callback_in_step st :
  is_Some (preloaderEl st) -> in_step (hide_callback st).
Proof.
  intros [classes Hel]. unfold hide_callback, in_step, visible, scroll_locked.
  rewrite Hel. cbn [preloaderEl body_overflow]. rewrite added_present.
  split; [eexists |]; reflexivity.
Qed.

Lemma setTimeout_in_step cb delay clock st :
  in_step st -> in_step (setTimeout cb delay clock st).
Proof. intros H. exact H. Qed.

Lemma hidePreloader_in_step st clock :
  in_step st -> in_step (hidePreloader clock st).
Proof.
  intros H. unfold hidePreloader. destruct (preloaderEl st); exact H.
Qed.

Lemma act_in_step (a : Action) st : in_step st -> in_step (act a st).
Proof.
  intros H. pose proof H as [Hel _].
  destruct a as [clock | clock | btn clock | e clock | prevented clock
                | persisted clock |]; cbn [act].
  - now apply showPreloader_in_step.
  - now apply hidePreloader_in_step.
  - unfold button_click.
    destruct (String.eqb (type btn) "submit" || has_data_preloader btn);
      [| exact H].
    apply setTimeout_in_step. now apply showPreloader_in_step.
  - unfold link_click. destruct (defaultPrevented e); [exact H |].
    destruct (metaKey e || ctrlKey e || shiftKey e); [exact H |].
    now apply showPreloader_in_step.
  - unfold form_submit. destruct (negb prevented); [| exact H].
    apply setTimeout_in_step. now apply showPreloader_in_step.
  - unfold pageshow. destruct persisted; [| exact H].
    now apply hidePreloader_in_step.
  - unfold run_next. destruct (timeouts st) as [|[due cb] rest]; [exact H |].
    destruct cb; cbn [run_callback].
    + apply hide_callback_in_step. exact Hel.
    + apply hidePreloader_in_step. exact H.
Qed.

Lemma acts_in_step (l : list Action) st : in_step st -> in_step (acts l st).
Proof.
  revert st. induction l as [|a l IH]; intros st H; [exact H |].
  cbn. apply IH. now apply act_in_step.
Qed.

(** Without element, showing and hiding change nothing. *)
Lemma act_without_element (a : Action) st :
  preloaderEl st = None ->
  always_wired a ->
  act a st = st.
Proof.
  intros Hel. destruct a; try contradiction; intros _; cbn [act].
  - unfold showPreloader. now rewrite Hel.
  - unfold hidePreloader. now rewrite Hel.
Qed.

End PreloaderInvariant.

(** X17: once the page is locked exactly while the preloader is on
    display, it stays so whatever happens next: showings, hidings, clicks
    on buttons and links, form submissions, page shows and timers
    running. *)
Theorem lock_follows_display (l : list Preloader.Action) (st : Preloader.t) :
  Preloader.in_step st -> Preloader.in_step (Preloader.acts l st).
Proof. apply acts_in_step. Qed.

(** The page once [init] has found the element and its first timer has
    run, then a submit button clicked and the fallback running. *)
Lemma lock_follows_display_witness :
  let st :=
    Preloader.run_next (Preloader.init (Some []) 0 (Preloader.loaded "")) in
  let btn := Preloader.mkElement "submit" false None "" in
  Preloader.in_step
    (Preloader.acts [Preloader.act_button btn 5000; Preloader.act_timer] st).
Proof.
  intros st btn. apply lock_follows_display.
  split; [eexists |]; reflexivity.
Defined.

(** X18: when [init] finds no element it logs one line and nothing more,
    and from then on no call of [show] or [hide], from the page or from
    the [load] listener, changes anything: no timer is ever queued and the
    overflow of the body is never written. *)
Theorem no_element_inert
    (clock : Z) (overflow : string) (l : list Preloader.Action) :
  Forall Preloader.always_wired l ->
  let st0 := Preloader.init None clock (Preloader.loaded overflow) in
  st0 = Preloader.mk None 0 overflow [] ["Preloader: Element not found"] /\
  Preloader.acts l st0 = st0.
Proof.
  intros Hl st0. split; [reflexivity |].
  assert (Preloader.preloaderEl st0 = None) as Hel by reflexivity.
  clearbody st0. induction Hl as [|a l Ha Hl IH]; [reflexivity |].
  cbn. rewrite (act_without_element a st0 Hel Ha). exact IH.
Qed.

(** A page without preloader that calls [show] and [hide]. *)
Lemma no_element_inert_witness :
  let st0 := Preloader.init None 0 (Preloader.loaded "") in
  Preloader.acts [Preloader.act_show 10; Preloader.act_hide 20] st0 = st0.
Proof.
  intros st0.
  apply (no_element_inert 0 "" [Preloader.act_show 10; Preloader.act_hide 20]).
  repeat constructor.
Defined.

Section Links.

Import Preloader.

Lemma prefix_first (a : ascii) (p h : string) :
  String.prefix (String a p) h = true -> exists h', h = String a h'.
Proof.
  destruct h as [|b h']; cbn; [discriminate |].
  destruct (Ascii.ascii_dec a b) as [-> | _]; [eauto | discriminate].
Qed.

Lemma prefix_http_first (origin : string) :
  String.prefix "http" origin = true -> exists o, origin = String "h" o.
Proof. apply prefix_first. Qed.

(** A reference into the page, a mail or a telephone address is none of an
    internal link. *)
Lemma special_not_internal (origin h : string) :
  String.prefix "http" origin = true ->
  String.prefix "#" h = true \/ String.prefix "mailto:" h = true \/
  String.prefix "tel:" h = true ->
  String.prefix "/" h || String.prefix origin h = false.
Proof.
  intros Ho Hsp. apply prefix_http_first in Ho as [o ->].
  apply orb_false_iff.
  destruct Hsp as [H | [H | H]]; apply prefix_first in H as [h' ->];
    split; reflexivity.
Qed.

End Links.

(** X19: on a site served over http or https, [attachLinkListeners] puts
    its listener on a link exactly when the link has a non-empty [href],
    is not excluded, does not open in [_blank], and its [href] starts with
    a slash or with the origin of the page; its tests for [#], [mailto:]
    and [tel:] never turn such a link down. *)
Theorem listens_to_internal_links
    (matches : Preloader.Element -> string -> bool) (origin : string)
    (link : Preloader.Element) :
  String.prefix "http" origin = true ->
  Preloader.link_listens matches origin link = true <->
  exists h,
    Preloader.href link = Some h /\ h <> "" /\
    Preloader.isExcluded matches link = false /\
    Preloader.target link <> "_blank" /\
    (String.prefix "/" h = true \/ String.prefix origin h = true).
Proof.
  intros Ho. unfold Preloader.link_listens.
  destruct (Preloader.href link) as [h|];
    [| split; [discriminate | intros (h & Hh & _); discriminate]].
  destruct h as [|c h'];
    [split; [discriminate | intros (h & Hh & Hne & _); congruence] |].
  cbn [String.length Nat.eqb].
  set (h := String c h').
  destruct (Preloader.isExcluded matches link);
    [split; [discriminate | intros (? & _ & _ & Hx & _); discriminate] |].
  destruct (String.eqb_spec (Preloader.target link) "_blank") as [Ht | Ht].
  - split.
    + destruct (String.prefix "#" h), (String.prefix "mailto:" h),
               (String.prefix "tel:" h); discriminate.
    + intros (? & _ & _ & _ & Hx & _). contradiction.
  - split.
    + intros Hl. exists h.
      repeat (split; [reflexivity || assumption || discriminate |]).
      apply orb_true_iff.
      destruct (String.prefix "#" h), (String.prefix "mailto:" h),
               (String.prefix "tel:" h); try discriminate. exact Hl.
    + intros (h0 & Hh & _ & _ & _ & Hint). injection Hh as <-.
      apply orb_true_iff in Hint.
      destruct (String.prefix "#" h) eqn:H1;
        [rewrite special_not_internal in Hint by auto; discriminate |].
      destruct (String.prefix "mailto:" h) eqn:H2;
        [rewrite special_not_internal in Hint by auto; discriminate |].
      destruct (String.prefix "tel:" h) eqn:H3;
        [rewrite special_not_internal in Hint by auto; discriminate |].
      exact Hint.
Qed.

(** A link to [/cart] on a shop served over https. *)
Lemma listens_to_internal_links_witness :
  Preloader.link_listens (fun _ _ => false) "https://shop.example"
    (Preloader.mkElement "" false (Some "/cart") "") = true.
Proof.
  apply (listens_to_internal_links (fun _ _ => false) "https://shop.example");
    [reflexivity |].
  exists "/cart". repeat split; [discriminate | discriminate | now left].
Defined.

(** ** The text reveal *)

Section TextReveal.

Import MysteriousEffects.

Lemma substring_none (s : string) : String.substring 0 0 s = "".
Proof. now destruct s. Qed.

Lemma substring_next (s : string) : forall k,
  (k < String.length s)%nat ->
  (String.substring 0 k s ++ charAt k s)%string = String.substring 0 (S k) s.
Proof.
  induction s as [|c s IH]; intros k Hk; cbn in Hk; [lia |].
  destruct k as [|k].
  - unfold charAt. cbn. now rewrite substring_none.
  - unfold charAt in *. cbn [String.substring String.get].
    rewrite <- (IH k) by lia. reflexivity.
Qed.

Lemma substring_whole (s : string) : String.substring 0 (String.length s) s = s.
Proof. induction s as [|c s IH]; cbn; [reflexivity | now f_equal]. Qed.

(** The element after [k] ticks. *)
Lemma reveal_ticks_state (content visible : string) (k : nat) :
  reveal_ticks k (initTextReveal false content visible)
  = mkRevealing
      (String.substring 0 (Nat.min k (String.length content)) content)
      "visible"
      (if (k <=? String.length content)%nat
       then Some (mkClosure content k) else None).
Proof.
  induction k as [|k IH].
  - cbn. now rewrite substring_none.
  - cbn [reveal_ticks]. rewrite IH.
    unfold reveal_tick.
    destruct (Nat.leb_spec k (String.length content)) as [Hle | Hgt];
      cbn [revealInterval text charIndex textContent visibility].
    + destruct (Nat.ltb_spec k (String.length content)) as [Hlt | Hge].
      * rewrite Nat.min_l by lia. rewrite substring_next by lia.
        rewrite Nat.min_l by lia.
        destruct (Nat.leb_spec (S k) (String.length content)); [| lia].
        reflexivity.
      * rewrite !Nat.min_r by lia.
        destruct (Nat.leb_spec (S k) (String.length content)); [lia |].
        reflexivity.
    + rewrite !Nat.min_r by lia.
      destruct (Nat.leb_spec (S k) (String.length content)); [lia |].
      reflexivity.
Qed.

End TextReveal.

(** X20: the text reveal gives the text back: emptied when the reveal
    starts, the element holds after [k] ticks the first [k] code units of
    its text, after as many ticks as the text is long the whole text, the
    timer still running; the next tick stops the timer, and the text stays
    whole at every later tick.  Under reduced motion nothing is emptied and
    no timer is started. *)
Theorem text_reveal_restores_text (content visible : string) (k : nat) :
  let r :=
    MysteriousEffects.reveal_ticks k
      (MysteriousEffects.initTextReveal false content visible) in
  MysteriousEffects.textContent
    (MysteriousEffects.initTextReveal false content visible) = "" /\
  MysteriousEffects.textContent r
  = String.substring 0 (Nat.min k (String.length content)) content /\
  ((String.length content <= k)%nat ->
   MysteriousEffects.textContent r = content) /\
  ((k <= String.length content)%nat ->
   MysteriousEffects.revealInterval r
   = Some (MysteriousEffects.mkClosure content k)) /\
  ((String.length content < k)%nat ->
   MysteriousEffects.revealInterval r = None) /\
  MysteriousEffects.reveal_ticks k
    (MysteriousEffects.initTextReveal true content visible)
  = MysteriousEffects.mkRevealing content visible None.
Proof.
  intros r. subst r. rewrite reveal_ticks_state.
  cbn [MysteriousEffects.textContent MysteriousEffects.revealInterval].
  split; [reflexivity |]. split; [reflexivity |].
  split; [intros Hk; rewrite Nat.min_r by lia; apply substring_whole |].
  split; [intros Hk;
          now destruct (Nat.leb_spec k (String.length content)); [| lia] |].
  split; [intros Hk;
          now destruct (Nat.leb_spec k (String.length content)); [lia |] |].
  induction k as [|k IH]; [reflexivity |].
  cbn [MysteriousEffects.reveal_ticks]. now rewrite IH.
Qed.

(** ** The classes added to existing sections *)

Section Enhance.

Import MysteriousEffects.

Implicit Types (c x : string) (el : Element) (doc : Document)
  (classes : list string).

Local Arguments String.eqb : simpl never.
Local Arguments contains : simpl never.
Local Arguments DropStatus.tokens_add : simpl never.

Lemma contains_add c x el :
  contains c (DropStatus.tokens_add x el) = String.eqb c x || contains c el.
Proof.
  unfold contains, DropStatus.tokens_add.
  destruct (existsb (String.eqb x) el) eqn:Hx.
  - destruct (String.eqb_spec c x) as [-> | _]; [| reflexivity].
    now rewrite Hx.
  - rewrite existsb_app. cbn. rewrite orb_false_r. apply orb_comm.
Qed.

Lemma add_if_missing_add c el :
  add_if_missing c el = DropStatus.tokens_add c el.
Proof.
  unfold add_if_missing, DropStatus.tokens_add, contains.
  now destruct (existsb (String.eqb c) el).
Qed.

Lemma add_present c el :
  contains c el = true -> DropStatus.tokens_add c el = el.
Proof. unfold contains, DropStatus.tokens_add. now intros ->. Qed.

Lemma of_class_add classes x el :
  existsb (String.eqb x) classes = false ->
  of_class classes (DropStatus.tokens_add x el) = of_class classes el.
Proof.
  unfold of_class. induction classes as [|c classes IH]; [reflexivity |].
  cbn. intros H. apply orb_false_iff in H as [Hc Hrest].
  rewrite contains_add, IH by assumption.
  rewrite String.eqb_sym, Hc. reflexivity.
Qed.

Lemma forEach_maybe_added classes x doc :
  Forall2 (maybe_added x) doc (forEach_class classes (add_if_missing x) doc).
Proof.
  induction doc as [|el doc IH]; cbn; constructor; [| exact IH].
  destruct (existsb _ classes); [right; apply add_if_missing_add | now left].
Qed.

Lemma first_maybe_added c x doc :
  Forall2 (maybe_added x) doc (first_of_class c (DropStatus.tokens_add x) doc).
Proof.
  induction doc as [|el doc IH]; cbn; [constructor |].
  destruct (contains c el); constructor; try (now left); try exact IH.
  - now right.
  - clear. induction doc; constructor; [now left | assumption].
Qed.

Lemma settled_after_add classes c x el el' :
  existsb (String.eqb x) classes = false ->
  maybe_added x el el' -> settled classes c el -> settled classes c el'.
Proof.
  intros Hx [-> | ->] Hs; [exact Hs |].
  unfold settled. rewrite of_class_add, contains_add by assumption.
  intros H. rewrite (Hs H). apply orb_true_r.
Qed.

Lemma Forall_settled_after classes c x doc doc' :
  existsb (String.eqb x) classes = false ->
  Forall2 (maybe_added x) doc doc' ->
  Forall (settled classes c) doc -> Forall (settled classes c) doc'.
Proof.
  intros Hx H2. induction H2 as [|el el' doc doc' Hel H2 IH];
    intros Hall; [constructor |].
  inversion Hall as [|? ? Hhd Htl]; subst.
  constructor; [eapply settled_after_add; eassumption | now apply IH].
Qed.

Lemma forEach_settles classes c doc :
  Forall (settled classes c) (forEach_class classes (add_if_missing c) doc).
Proof.
  induction doc as [|el doc IH]; cbn; constructor; [| exact IH].
  unfold settled. fold (of_class classes el).
  destruct (of_class classes el) eqn:Hof.
  - intros _. rewrite add_if_missing_add, contains_add, String.eqb_refl.
    reflexivity.
  - rewrite Hof. discriminate.
Qed.

Lemma forEach_settled_same classes c doc :
  Forall (settled classes c) doc ->
  forEach_class classes (add_if_missing c) doc = doc.
Proof.
  induction 1 as [|el doc Hel Hall IH]; cbn; [reflexivity |].
  fold (of_class classes el). f_equal; [| exact IH].
  destruct (of_class classes el) eqn:Hof; [| reflexivity].
  rewrite add_if_missing_add. apply add_present. now apply Hel.
Qed.

Lemma first_settles c x doc :
  first_settled c x (first_of_class c (DropStatus.tokens_add x) doc).
Proof.
  induction doc as [|el doc IH]; cbn; [exact I |].
  destruct (contains c el) eqn:Hc; cbn.
  - rewrite !contains_add, Hc, orb_true_r, String.eqb_refl. reflexivity.
  - rewrite Hc. exact IH.
Qed.

Lemma first_settled_same c x doc :
  first_settled c x doc ->
  first_of_class c (DropStatus.tokens_add x) doc = doc.
Proof.
  induction doc as [|el doc IH]; cbn; [reflexivity |].
  destruct (contains c el).
  - intros Hx. f_equal. now apply add_present.
  - intros H. f_equal. now apply IH.
Qed.

Lemma first_settled_after c x y doc doc' :
  String.eqb c y = false ->
  Forall2 (maybe_added y) doc doc' ->
  first_settled c x doc -> first_settled c x doc'.
Proof.
  intros Hy H2. induction H2 as [|el el' doc doc' Hel H2 IH]; cbn;
    [auto |].
  assert (contains c el' = contains c el) as ->.
  { destruct Hel as [-> | ->]; [reflexivity |].
    now rewrite contains_add, Hy. }
  destruct (contains c el); [| exact IH].
  destruct Hel as [-> | ->]; [auto |].
  intros Hx. rewrite contains_add, Hx. apply orb_true_r.
Qed.

End Enhance.

Section EnhanceRuns.

Import MysteriousEffects.

Implicit Types (c x : string) (el : Element) (doc : Document)
  (classes : list string).

Local Arguments String.eqb : simpl never.
Local Arguments contains : simpl never.
Local Arguments DropStatus.tokens_add : simpl never.

(** The four stages of [enhanceExistingSections]. *)
Lemma enhance_stages doc :
  exists d1 d2 d3,
    Forall2 (maybe_added "mysterious-vignette") doc d1 /\
    Forall (settled ["banner"; "image-banner"] "mysterious-vignette") d1 /\
    Forall2 (maybe_added "mysterious-image-reveal") d1 d2 /\
    Forall (settled ["product__media-wrapper"] "mysterious-image-reveal") d2 /\
    Forall2 (maybe_added "mysterious-pulse") d2 d3 /\
    first_settled "button--primary" "mysterious-pulse" d3 /\
    d3 = first_of_class "button--primary"
           (DropStatus.tokens_add "mysterious-pulse") d2 /\
    Forall2 (maybe_added "mysterious-reveal-up") d3
            (enhanceExistingSections doc) /\
    Forall (settled ["banner__content"; "newsletter__wrapper"]
                    "mysterious-reveal-up") (enhanceExistingSections doc) /\
    enhanceExistingSections doc
    = forEach_class ["banner__content"; "newsletter__wrapper"]
        (add_if_missing "mysterious-reveal-up") d3.
Proof.
  unfold enhanceExistingSections.
  eexists. eexists. eexists.
  split; [apply forEach_maybe_added |].
  split; [apply forEach_settles |].
  split; [apply forEach_maybe_added |].
  split; [apply forEach_settles |].
  split; [apply first_maybe_added |].
  split; [apply first_settles |].
  split; [reflexivity |].
  split; [apply forEach_maybe_added |].
  split; [apply forEach_settles | reflexivity].
Qed.

Lemma maybe_added_grown x el el' :
  In x added_classes -> maybe_added x el el' -> grown el el'.
Proof.
  intros Hx [-> | ->] c; [tauto |].
  rewrite contains_add. split.
  - intros ->. apply orb_true_r.
  - intros H. apply orb_true_iff in H as [H | H]; [| now left].
    right. apply String.eqb_eq in H. now subst c.
Qed.

Lemma grown_trans el1 el2 el3 :
  grown el1 el2 -> grown el2 el3 -> grown el1 el3.
Proof.
  intros H12 H23 c. destruct (H12 c) as [Ha Hb], (H23 c) as [Hc Hd].
  split; [auto |]. intros H. destruct (Hd H) as [H2 | Hin]; auto.
Qed.

Lemma enhance_grown doc : Forall2 grown doc (enhanceExistingSections doc).
Proof.
  destruct (enhance_stages doc)
    as (d1 & d2 & d3 & H1 & _ & H2 & _ & H3 & _ & _ & H4 & _).
  apply (Forall2_impl _ grown) in H1;
    [| intros ? ?; apply maybe_added_grown; cbn; tauto].
  apply (Forall2_impl _ grown) in H2;
    [| intros ? ?; apply maybe_added_grown; cbn; tauto].
  apply (Forall2_impl _ grown) in H3;
    [| intros ? ?; apply maybe_added_grown; cbn; tauto].
  apply (Forall2_impl _ grown) in H4;
    [| intros ? ?; apply maybe_added_grown; cbn; tauto].
  pose proof (Forall2_trans _ _ grown _ _ _ grown_trans H1 H2) as H12.
  pose proof (Forall2_trans _ _ grown _ _ _ grown_trans H12 H3) as H123.
  exact (Forall2_trans _ _ grown _ _ _ grown_trans H123 H4).
Qed.

End EnhanceRuns.

(** X21: [enhanceExistingSections] run again on its own result changes
    nothing, so running it at every section load never piles up
    classes. *)
Theorem enhance_twice_same (doc : MysteriousEffects.Document) :
  MysteriousEffects.enhanceExistingSections
    (MysteriousEffects.enhanceExistingSections doc)
  = MysteriousEffects.enhanceExistingSections doc.
Proof.
  destruct (enhance_stages doc)
    as (d1 & d2 & d3 & _ & S1 & H2 & S2 & H3 & S3 & _ & H4 & S4 & _).
  set (d := MysteriousEffects.enhanceExistingSections doc) in *.
  assert (Forall (MysteriousEffects.settled ["banner"; "image-banner"]
                    "mysterious-vignette") d) as S1d.
  { eapply Forall_settled_after; [| exact H4 |]; [reflexivity |].
    eapply Forall_settled_after; [| exact H3 |]; [reflexivity |].
    eapply Forall_settled_after; [| exact H2 |]; [reflexivity | exact S1]. }
  assert (Forall (MysteriousEffects.settled ["product__media-wrapper"]
                    "mysterious-image-reveal") d) as S2d.
  { eapply Forall_settled_after; [| exact H4 |]; [reflexivity |].
    eapply Forall_settled_after; [| exact H3 |]; [reflexivity | exact S2]. }
  assert (MysteriousEffects.first_settled "button--primary"
            "mysterious-pulse" d) as S3d.
  { eapply first_settled_after; [| exact H4 | exact S3]. reflexivity. }
  unfold MysteriousEffects.enhanceExistingSections at 1.
  rewrite (forEach_settled_same _ _ d S1d).
  rewrite (forEach_settled_same _ _ d S2d).
  rewrite (first_settled_same _ _ d S3d).
  apply forEach_settled_same. exact S4.
Qed.

(** X22: [enhanceExistingSections] keeps the elements and their order,
    removes no class from any element, and adds nothing but its own four
    classes. *)
Theorem enhance_only_adds (doc : MysteriousEffects.Document) :
  length (MysteriousEffects.enhanceExistingSections doc) = length doc /\
  forall (i : nat) (el : MysteriousEffects.Element),
    doc !! i = Some el ->
    exists el',
      MysteriousEffects.enhanceExistingSections doc !! i = Some el' /\
      forall c,
        (MysteriousEffects.contains c el = true ->
         MysteriousEffects.contains c el' = true) /\
        (MysteriousEffects.contains c el' = true ->
         MysteriousEffects.contains c el = true \/
         In c ["mysterious-vignette"; "mysterious-image-reveal";
               "mysterious-pulse"; "mysterious-reveal-up"]).
Proof.
  pose proof (enhance_grown doc) as H. split.
  - symmetry. eapply Forall2_length, H.
  - intros i el Hi.
    destruct (Forall2_lookup_l _ _ _ _ _ H Hi) as (el' & Hi' & Hg).
    exists el'. split; [exact Hi' | exact Hg].
Qed.

Section EnhanceIndices.

Import MysteriousEffects.

Implicit Types (c x : string) (el : Element) (doc : Document)
  (classes : list string).

Local Arguments String.eqb : simpl never.
Local Arguments contains : simpl never.
Local Arguments DropStatus.tokens_add : simpl never.

(** Where [first_of_class] changes an element, it is the first of the
    class. *)
Lemma first_of_class_lookup c (f : Element -> Element) doc :
  forall (i : nat) (y y' : Element),
    doc !! i = Some y ->
    first_of_class c f doc !! i = Some y' ->
    y' = y \/
    (y' = f y /\ contains c y = true /\
     forall (j : nat) (z : Element),
       (j < i)%nat -> doc !! j = Some z -> contains c z = false).
Proof.
  induction doc as [|el doc IH]; intros i y y' Hy Hy'; [discriminate |].
  cbn in Hy'. destruct (contains c el) eqn:Hc.
  - destruct i as [|i]; cbn in Hy, Hy'.
    + injection Hy as <-. injection Hy' as <-. right.
      split; [reflexivity |]. split; [exact Hc |]. intros j z Hj. lia.
    + left. congruence.
  - destruct i as [|i]; cbn in Hy, Hy'.
    + left. congruence.
    + destruct (IH i y y' Hy Hy') as [-> | (-> & Hcy & Hbefore)];
        [now left | right].
      split; [reflexivity |]. split; [exact Hcy |].
      intros [|j] z Hj Hz; cbn in Hz.
      * congruence.
      * apply (Hbefore j z); [lia | exact Hz].
Qed.

Lemma maybe_added_contains c x el el' :
  String.eqb c x = false -> maybe_added x el el' ->
  contains c el' = contains c el.
Proof.
  intros Hx [-> | ->]; [reflexivity |]. now rewrite contains_add, Hx.
Qed.

Lemma maybe_added_of_class classes x el el' :
  existsb (String.eqb x) classes = false -> maybe_added x el el' ->
  of_class classes el' = of_class classes el.
Proof. intros Hx [-> | ->]; [reflexivity | now apply of_class_add]. Qed.

(** The indices [indices_of_class] lists. *)
Lemma In_indices_of_class classes doc : forall (k i : nat),
  In i (indices_of_class classes k doc) <->
  exists (j : nat) (el : Element),
    i = (k + j)%nat /\ doc !! j = Some el /\ of_class classes el = true.
Proof.
  induction doc as [|el doc IH]; intros k i; cbn.
  - split; [contradiction | intros (j & e & _ & H & _); discriminate].
  - fold (of_class classes el).
    assert (In i (indices_of_class classes (S k) doc) <->
            exists (j : nat) (e : Element),
              i = (k + S j)%nat /\ doc !! j = Some e /\
              of_class classes e = true) as Hrest.
    { rewrite IH. split; intros (j & e & Hi & H); exists j, e;
        (split; [lia | exact H]). }
    destruct (of_class classes el) eqn:Hof; cbn; rewrite ?Hrest; split.
    + intros [<- | (j & e & Hi & H)].
      * exists O, el. split; [lia |]. split; [reflexivity | exact Hof].
      * exists (S j), e. split; [exact Hi | exact H].
    + intros ([|j] & e & Hi & Hl & He); cbn in Hl.
      * left. lia.
      * right. exists j, e. auto.
    + intros (j & e & Hi & H). exists (S j), e. split; [exact Hi | exact H].
    + intros ([|j] & e & Hi & Hl & He); cbn in Hl.
      * congruence.
      * exists j, e. auto.
Qed.

Lemma In_revealElements doc (i : nat) :
  In i (revealElements doc) <->
  exists el : Element,
    doc !! i = Some el /\
    of_class ["mysterious-reveal"; "mysterious-reveal-up"] el = true.
Proof.
  unfold revealElements. rewrite In_indices_of_class. split.
  - intros (j & el & -> & H). now exists el.
  - intros (el & H). now exists i, el.
Qed.

Lemma existsb_index (i : nat) (l : list nat) :
  existsb (Nat.eqb i) l = true <-> In i l.
Proof.
  rewrite existsb_exists. split.
  - intros (x & Hx & Heq). apply Nat.eqb_eq in Heq. now subst x.
  - intros H. exists i. split; [exact H | apply Nat.eqb_refl].
Qed.

Lemma lookup_map_element (f : Element -> Element) doc : forall i : nat,
  map f doc !! i = f <$> doc !! i.
Proof.
  induction doc as [|el doc IH]; intros [|i]; cbn; try reflexivity.
  apply IH.
Qed.

(** What [initScrollReveal] adds to the observed elements. *)
Lemma observed_initScrollReveal (i : nat) (p : Page) :
  observed i (initScrollReveal p)
  = observed i p || existsb (Nat.eqb i) (revealElements (document p)).
Proof.
  unfold initScrollReveal, observed.
  destruct (revealElements (document p)) as [|t ts] eqn:Ht.
  - cbn. now rewrite orb_false_r.
  - cbn [observers]. rewrite existsb_app. cbn [existsb].
    now rewrite orb_false_r.
Qed.

End EnhanceIndices.

(** X23: the only element to which [enhanceExistingSections] can give the
    class [mysterious-pulse] is the first element of class
    [button--primary] of the document. *)
Theorem pulse_on_first_primary_only
    (doc : MysteriousEffects.Document) (i : nat)
    (el el' : MysteriousEffects.Element) :
  doc !! i = Some el ->
  MysteriousEffects.enhanceExistingSections doc !! i = Some el' ->
  MysteriousEffects.contains "mysterious-pulse" el = false ->
  MysteriousEffects.contains "mysterious-pulse" el' = true ->
  MysteriousEffects.contains "button--primary" el = true /\
  forall (j : nat) (z : MysteriousEffects.Element),
    (j < i)%nat -> doc !! j = Some z ->
    MysteriousEffects.contains "button--primary" z = false.
Proof.
  intros Hi Hi' Hno Hyes.
  destruct (enhance_stages doc)
    as (d1 & d2 & d3 & H1 & _ & H2 & _ & _ & _ & Hd3 & H4 & _).
  assert (forall (j : nat) (z : MysteriousEffects.Element),
            doc !! j = Some z ->
            exists z2, d2 !! j = Some z2 /\
              MysteriousEffects.contains "button--primary" z2
              = MysteriousEffects.contains "button--primary" z /\
              MysteriousEffects.contains "mysterious-pulse" z2
              = MysteriousEffects.contains "mysterious-pulse" z) as Hto2.
  { intros j z Hz.
    destruct (Forall2_lookup_l _ _ _ _ _ H1 Hz) as (z1 & Hz1 & A1).
    destruct (Forall2_lookup_l _ _ _ _ _ H2 Hz1) as (z2 & Hz2 & A2).
    exists z2. split; [exact Hz2 |].
    split.
    - rewrite (maybe_added_contains "button--primary"
                 "mysterious-image-reveal" _ _ eq_refl A2).
      apply (maybe_added_contains "button--primary" "mysterious-vignette"
               _ _ eq_refl A1).
    - rewrite (maybe_added_contains "mysterious-pulse"
                 "mysterious-image-reveal" _ _ eq_refl A2).
      apply (maybe_added_contains "mysterious-pulse" "mysterious-vignette"
               _ _ eq_refl A1). }
  destruct (Hto2 i el Hi) as (y & Hy & Hprim & Hpulse).
  destruct (Forall2_lookup_l _ _ _ _ _
              (first_maybe_added "button--primary" "mysterious-pulse" d2) Hy)
    as (y' & Hy' & _).
  rewrite <- Hd3 in Hy'.
  pose proof (Forall2_lookup_lr _ _ _ _ _ _ H4 Hy' Hi') as A4.
  rewrite (maybe_added_contains "mysterious-pulse" "mysterious-reveal-up"
             _ _ eq_refl A4) in Hyes.
  rewrite Hd3 in Hy'.
  destruct (first_of_class_lookup _ _ _ _ _ _ Hy Hy')
    as [-> | (_ & Hc & Hbefore)]; [congruence |].
  split; [congruence |].
  intros j z Hj Hz. destruct (Hto2 j z Hz) as (z2 & Hz2 & Hp & _).
  rewrite <- Hp. now apply (Hbefore j z2).
Qed.

(** Two primary buttons: the first gets the class. *)
Lemma pulse_on_first_primary_only_witness :
  MysteriousEffects.contains "button--primary" ["button--primary"] = true.
Proof.
  apply (pulse_on_first_primary_only
           [["button--primary"]; ["button--primary"]] 0
           ["button--primary"] ["button--primary"; "mysterious-pulse"]);
    reflexivity.
Defined.

(** X24: an element that gets [mysterious-reveal-up] from
    [enhanceExistingSections] alone (of class [banner__content] or
    [newsletter__wrapper], without reveal class of its own) is not handed
    to the observer when [initScrollReveal] runs first, as in [initAll],
    although it carries the class afterwards; it is handed to one when
    [enhanceExistingSections] runs first, as on a section load. *)
Theorem reveal_order_matters
    (p : MysteriousEffects.Page) (i : nat) (el : MysteriousEffects.Element) :
  MysteriousEffects.document p !! i = Some el ->
  MysteriousEffects.of_class ["banner__content"; "newsletter__wrapper"] el
  = true ->
  MysteriousEffects.of_class ["mysterious-reveal"; "mysterious-reveal-up"] el
  = false ->
  MysteriousEffects.observed i p = false ->
  (MysteriousEffects.observed i (MysteriousEffects.reveal_then_enhance p)
   = false /\
   exists el',
     MysteriousEffects.document (MysteriousEffects.reveal_then_enhance p) !! i
     = Some el' /\
     MysteriousEffects.contains "mysterious-reveal-up" el' = true) /\
  MysteriousEffects.observed i (MysteriousEffects.section_load p) = true.
Proof.
  intros Hi Hsel Hnone Hobs.
  set (doc := MysteriousEffects.document p) in *.
  assert (exists el',
            MysteriousEffects.enhanceExistingSections doc !! i = Some el' /\
            MysteriousEffects.contains "mysterious-reveal-up" el' = true)
    as (el' & Hi' & Hup).
  { destruct (enhance_stages doc)
      as (d1 & d2 & d3 & H1 & _ & H2 & _ & H3 & _ & _ & _ & _ & ->).
    destruct (Forall2_lookup_l _ _ _ _ _ H1 Hi) as (z1 & Hz1 & A1).
    destruct (Forall2_lookup_l _ _ _ _ _ H2 Hz1) as (z2 & Hz2 & A2).
    destruct (Forall2_lookup_l _ _ _ _ _ H3 Hz2) as (z3 & Hz3 & A3).
    assert (MysteriousEffects.of_class
              ["banner__content"; "newsletter__wrapper"] z3 = true) as Hz.
    { rewrite (maybe_added_of_class
                 ["banner__content"; "newsletter__wrapper"]
                 "mysterious-pulse" _ _ eq_refl A3),
        (maybe_added_of_class ["banner__content"; "newsletter__wrapper"]
           "mysterious-image-reveal" _ _ eq_refl A2),
        (maybe_added_of_class ["banner__content"; "newsletter__wrapper"]
           "mysterious-vignette" _ _ eq_refl A1). exact Hsel. }
    unfold MysteriousEffects.forEach_class. eexists. split.
    - rewrite lookup_map_element.
      refine (eq_trans (f_equal (fmap _) Hz3) _).
      cbn [fmap option_fmap option_map].
      fold (MysteriousEffects.of_class
              ["banner__content"; "newsletter__wrapper"] z3).
      rewrite Hz. reflexivity.
    - rewrite add_if_missing_add, contains_add. reflexivity. }
  split; [split |].
  - unfold MysteriousEffects.reveal_then_enhance, MysteriousEffects.enhance_page.
    unfold MysteriousEffects.observed at 1.
    cbn [MysteriousEffects.observers].
    fold (MysteriousEffects.observed i (MysteriousEffects.initScrollReveal p)).
    rewrite observed_initScrollReveal, Hobs. cbn [orb].
    destruct (existsb (Nat.eqb i)
                (MysteriousEffects.revealElements
                   (MysteriousEffects.document p))) eqn:Hin;
      [| reflexivity].
    apply existsb_index, In_revealElements in Hin as (e & He & Hcls).
    fold doc in He. congruence.
  - exists el'. split; [| exact Hup].
    unfold MysteriousEffects.reveal_then_enhance, MysteriousEffects.enhance_page.
    cbn [MysteriousEffects.document].
    assert (MysteriousEffects.document (MysteriousEffects.initScrollReveal p)
            = doc) as ->; [| exact Hi'].
    unfold MysteriousEffects.initScrollReveal.
    now destruct (MysteriousEffects.revealElements
                    (MysteriousEffects.document p)).
  - unfold MysteriousEffects.section_load.
    rewrite observed_initScrollReveal. apply orb_true_iff. right.
    apply existsb_index, In_revealElements.
    exists el'. split; [exact Hi' |].
    unfold MysteriousEffects.of_class. cbn [existsb]. rewrite Hup.
    apply orb_true_iff. right. reflexivity.
Qed.

(** A page whose only element is a banner content. *)
Lemma reveal_order_matters_witness :
  let p := MysteriousEffects.mkPage [["banner__content"]] [] in
  MysteriousEffects.observed 0 (MysteriousEffects.reveal_then_enhance p)
  = false /\
  MysteriousEffects.observed 0 (MysteriousEffects.section_load p) = true.
Proof.
  intros p.
  destruct (reveal_order_matters p 0 ["banner__content"])
    as [[Hnot _] Hyes]; try reflexivity.
  split; [exact Hnot | exact Hyes].
Defined.
